(** * GoatsVGravity: the embedding ingestion notebook (ingestion.ipynb)

    A shallow embedding of the code cells of the notebook:
    - cell 1 reads four text files with [read_file] and assembles them into
      the frame [df_combined] with [pd.DataFrame], [pd.concat] and
      [reset_index];
    - cell 2 checks the configuration ([load_dotenv], [envVars]), retrieves
      one embedding per text with [get_embeddings] and stores the result as
      the column [openaiEmbeddings];
    - cell 3 prints the number of rows per label, and the last cell pickles
      the frame to [data/text.pkl].

    Pure code is a Rocq function, code that can raise returns [exn + _], and
    the code that talks to the embedding service is an interaction tree whose
    events are executed against an arbitrary service by [run]. *)

From stdpp Require Import gmap strings list pretty sorting.
From Stdlib Require Import Ascii PrimFloat.
From ITree Require Import ITree ITreeFacts Events.State Events.StateFacts.

Notation "x <- t1 ;; t2" := (ITree.bind t1 (fun x => t2))
  (at level 100, t1 at next level, right associativity) : itree_scope.
Notation "t1 ;; t2" := (ITree.bind t1 (fun _ => t2))
  (at level 100, right associativity) : itree_scope.

Local Open Scope string_scope.
Local Open Scope list_scope.
Local Open Scope itree_scope.

(* ================================================================= *)
(** ** Python values and exceptions *)

(** An embedding is the list of floats found under
    [response['data'][0]['embedding']]. *)
Definition EmbeddingVector : Type := list float.

(** The values held by the cells of a frame: a [str], a list of floats, or
    the missing value [NaN] that pandas fills in when it reindexes. *)
Inductive value : Type :=
| Str (s : string)
| Vec (v : EmbeddingVector)
| NaN.

(** The exceptions raised by the modelled code, with the data their message
    is built from. [APIError] stands for whatever [openai.Embedding.create]
    raises (connection, rate limit, authentication, ...). *)
Inductive exn : Type :=
| FileNotFoundError (path : string)
| Exception (msg : string)
| EnvironmentError (msg : string)
| ValueError (msg : string)
| KeyError (key : string)
| IndexError (msg : string)
| APIError (msg : string).

(** [str(e)], as interpolated by the f-string of the retry message. *)
Definition str_exn (e : exn) : string :=
  match e with
  | FileNotFoundError path =>
      "[Errno 2] No such file or directory: '" +:+ path +:+ "'"
  | Exception msg | EnvironmentError msg | ValueError msg
  | IndexError msg | APIError msg => msg
  | KeyError key => "'" +:+ key +:+ "'"
  end.

(* ================================================================= *)
(** ** Cell 1: the corpus loader *)

Definition LF : Ascii.ascii := "010"%char.
Definition CR : Ascii.ascii := "013"%char.

(** [open(file_path, 'r', encoding='utf-8')] opens the file in text mode
    with the default [newline=None], Python's universal newlines mode:
    lines in the input can end in LF, CR or CR LF, and these are
    translated into LF before being returned to the caller. *)
Fixpoint universal_newlines (s : string) : string :=
  match s with
  | EmptyString => EmptyString
  | String c s' =>
      if Ascii.eqb c CR then
        match s' with
        | String c' s'' =>
            if Ascii.eqb c' LF then String LF (universal_newlines s'')
            else String LF (universal_newlines s')
        | EmptyString => String LF EmptyString
        end
      else String c (universal_newlines s')
  end.

(** [f.readlines()]: the text cut after every LF, each line keeping its LF;
    a last line without LF is kept as it is, and an empty text has no
    line. *)
Fixpoint readlines (s : string) : list string :=
  match s with
  | EmptyString => []
  | String c s' =>
      if Ascii.eqb c LF then String c EmptyString :: readlines s'
      else match readlines s' with
           | [] => [String c EmptyString]
           | l :: ls => String c l :: ls
           end
  end.

(** [def read_file(file_path)]. The files of the working directory are a
    map [fs] from path to decoded text; a missing file raises in [open]. *)
Definition read_file (fs : gmap string string) (file_path : string)
  : exn + list string :=
  match fs !! file_path with
  | None => inl (FileNotFoundError file_path)
  | Some content => inr (readlines (universal_newlines content))
  end.

(** Predicates on lines used to state what [readlines] keeps. *)
Fixpoint ends_with_LF (s : string) : bool :=
  match s with
  | EmptyString => false
  | String c s' =>
      match s' with
      | EmptyString => Ascii.eqb c LF
      | String _ _ => ends_with_LF s'
      end
  end.

(** No LF anywhere but in the last position. *)
Fixpoint LF_only_last (s : string) : bool :=
  match s with
  | EmptyString => true
  | String c s' =>
      match s' with
      | EmptyString => true
      | String _ _ => negb (Ascii.eqb c LF) && LF_only_last s'
      end
  end.

Fixpoint has_CR (s : string) : bool :=
  match s with
  | EmptyString => false
  | String c s' => Ascii.eqb c CR || has_CR s'
  end.

(** The three terminators as strings, for examples. *)
Definition nl : string := String LF EmptyString.
Definition cr : string := String CR EmptyString.
Definition crnl : string := String CR (String LF EmptyString).

(** Code that can raise: the first exception aborts what follows. *)
Definition try {A B : Type} (r : exn + A) (k : A -> exn + B) : exn + B :=
  match r with
  | inl e => inl e
  | inr a => k a
  end.

Notation "'let!' x ':=' r 'in' k" := (try r (fun x => k))
  (at level 10, x name, r at level 100, k at level 200).

(* ================================================================= *)
(** ** The part of pandas that the notebook uses *)

Module pd.

(** A frame: the row labels and the named columns, in column order. Every
    column of a frame built by the functions below is as long as the
    index. *)
Record frame : Type := {
  index : list nat;
  columns : list (string * list value)
}.

Fixpoint lookup_column (key : string) (cols : list (string * list value))
  : option (list value) :=
  match cols with
  | [] => None
  | (k, c) :: cols' =>
      if String.eqb k key then Some c else lookup_column key cols'
  end.

(** [pd.DataFrame({'type': type, 'text': text})]: the scalar is broadcast
    over the rows of the list, the index is [RangeIndex(len(text))]. *)
Definition DataFrame (type : string) (text : list string) : frame :=
  {| index := seq 0 (length text);
     columns := [("type", replicate (length text) (Str type));
                 ("text", Str <$> text)] |}.

(** [df[key]] as the list of the column's values. *)
Definition getitem (df : frame) (key : string) : exn + list value :=
  match lookup_column key (columns df) with
  | Some c => inr c
  | None => inl (KeyError key)
  end.

(** The column names of the result of [concat]: the union of the names of
    the frames in order of first appearance ([join='outer'],
    [sort=False]). *)
Fixpoint union_keys (seen keys : list string) : list string :=
  match keys with
  | [] => []
  | k :: keys' =>
      if bool_decide (k ∈ seen) then union_keys seen keys'
      else k :: union_keys (k :: seen) keys'
  end.

Definition column_or_NaN (key : string) (df : frame) : list value :=
  default (replicate (length (index df)) NaN)
          (lookup_column key (columns df)).

(** [pd.concat(objs)] along the rows: the frames one below the other, each
    keeping its row labels; a frame that lacks a column gets [NaN] there.
    An empty list of frames is refused. *)
Definition concat (objs : list frame) : exn + frame :=
  match objs with
  | [] => inl (ValueError "No objects to concatenate")
  | _ :: _ =>
      let keys := List.concat ((fun df => (columns df).*1) <$> objs) in
      inr {| index := List.concat (index <$> objs);
             columns :=
               (fun key => (key, List.concat (column_or_NaN key <$> objs)))
                 <$> union_keys [] keys |}
  end.

(** [df.reset_index(drop=True)]: the rows are renumbered from 0. *)
Definition reset_index (df : frame) : frame :=
  {| index := seq 0 (length (index df)); columns := columns df |}.

(** [DataFrame._ensure_valid_index(value)], the first step of
    [df[key] = value]: under [not len(self.index) and is_list_like(value)
    and len(value) > 0] the frame takes the index of [Series(value)] and
    its columns are reindexed with [fill_value=np.nan]. So a frame without
    rows gets as many rows as a non-empty list has entries, its cells
    being [NaN]. *)
Definition ensure_valid_index (df : frame) (val : list value) : frame :=
  match index df, val with
  | [], _ :: _ =>
      {| index := seq 0 (length val);
         columns :=
           (fun kc => (kc.1, replicate (length val) NaN)) <$> columns df |}
  | _, _ => df
  end.

(** The column [key] replaced where it stands, or added as last column. *)
Fixpoint set_column (key : string) (val : list value)
    (cols : list (string * list value)) : list (string * list value) :=
  match cols with
  | [] => [(key, val)]
  | (k, c) :: cols' =>
      if String.eqb k key then (k, val) :: cols'
      else (k, c) :: set_column key val cols'
  end.

(** [df[key] = value] for a list [value] ([DataFrame.__setitem__], through
    [_sanitize_column]): after [_ensure_valid_index],
    [com.require_length_match] raises when the list and the index differ in
    length; otherwise the list becomes the column, by position. *)
Definition setitem (df : frame) (key : string) (val : list value)
  : exn + frame :=
  let df' := ensure_valid_index df val in
  if Nat.eqb (length val) (length (index df')) then
    inr {| index := index df'; columns := set_column key val (columns df') |}
  else
    inl (ValueError ("Length of values (" +:+ pretty (length val)
                     +:+ ") does not match length of index ("
                     +:+ pretty (length (index df')) +:+ ")")).

End pd.

(** The records of a frame: the pairs of its [type] and [text] cells, row
    by row (empty when one of the columns is missing). *)
Definition records (df : pd.frame) : list (value * value) :=
  match pd.lookup_column "type" (pd.columns df),
        pd.lookup_column "text" (pd.columns df) with
  | Some ty, Some tx => zip ty tx
  | _, _ => []
  end.

(** The rows of a frame with embeddings: [(type, text, openaiEmbeddings)]. *)
Definition dataset (df : pd.frame) : list (value * value * value) :=
  match pd.lookup_column "openaiEmbeddings" (pd.columns df) with
  | Some em => zip (records df) em
  | None => []
  end.

(** Cell 1, lines 102-114: the four files, one frame each, combined. *)
Definition df_combined (fs : gmap string string) : exn + pd.frame :=
  let! goats_lines := read_file fs "docs/goats.txt" in
  let! gravity_lines := read_file fs "docs/gravity.txt" in
  let! blackholes_lines := read_file fs "docs/blackholes.txt" in
  let! invasivegoats_lines := read_file fs "docs/invasivegoats.txt" in
  let df_goats := pd.DataFrame "goats" goats_lines in
  let df_gravity := pd.DataFrame "gravity" gravity_lines in
  let df_blackholes := pd.DataFrame "blackholes" blackholes_lines in
  let df_invasivegoats := pd.DataFrame "invasivegoats" invasivegoats_lines in
  let! df := pd.concat [df_goats; df_gravity; df_blackholes; df_invasivegoats] in
  inr (pd.reset_index df).

(** The assembler for any list of labelled documents, as cell 1 applies it
    to its four: one frame per document, [concat], [reset_index]. *)
Definition assemble (docs : list (string * list string)) : exn + pd.frame :=
  let! df := pd.concat ((fun d => pd.DataFrame d.1 d.2) <$> docs) in
  inr (pd.reset_index df).

(** The flat record sequence of a list of labelled documents: the lines of
    each document in turn, each with the label of its document. *)
Definition labelled (d : string * list string) : list (value * value) :=
  (fun l => (Str d.1, Str l)) <$> d.2.

Definition flat_records (docs : list (string * list string))
  : list (value * value) :=
  concat (labelled <$> docs).

(** The rows of a label, as [groupby('type')] gathers them. *)
Definition str_of (v : value) : option string :=
  match v with
  | Str s => Some s
  | _ => None
  end.

Definition group (label : string) (l : list (value * value))
  : list (value * value) :=
  filter (fun r => str_of r.1 = Some label) l.

(** The four documents of cell 1, in the order of [pd.concat]. *)
Definition documents (goats_lines gravity_lines blackholes_lines
    invasivegoats_lines : list string) : list (string * list string) :=
  [("goats", goats_lines); ("gravity", gravity_lines);
   ("blackholes", blackholes_lines); ("invasivegoats", invasivegoats_lines)].

(** The frame whose rows are the records [l], and the same frame with a
    column of embeddings. *)
Definition frame_of_records (l : list (value * value)) : pd.frame :=
  {| pd.index := seq 0 (length l);
     pd.columns := [("type", l.*1); ("text", l.*2)] |}.

Definition frame_with_embeddings (l : list (value * value))
    (embedding_results : list EmbeddingVector) : pd.frame :=
  {| pd.index := seq 0 (length l);
     pd.columns := [("type", l.*1); ("text", l.*2);
                    ("openaiEmbeddings", Vec <$> embedding_results)] |}.

(* ================================================================= *)
(** ** Cell 2, lines 276-288: the configuration check *)

Module dotenv.

(** [load_dotenv(path, override)]. The parser of python-dotenv is outside
    the notebook: [values] is the dictionary it builds from the file at
    [path], a name bound without [=] mapping to [None]; it is empty when
    the file is missing or binds nothing. The function is the library's
    [set_as_environment_variables]: nothing to set is reported as [False],
    otherwise every binding with a value is copied to [os.environ], over an
    existing entry only with [override]. *)
Definition load_dotenv (values : gmap string (option string))
    (override : bool) (environ : gmap string string)
  : bool * gmap string string :=
  if bool_decide (values = ∅) then (false, environ)
  else (true, if override then omap id values ∪ environ
              else environ ∪ omap id values).

End dotenv.

Definition envVars : list string := ["OPENAI_API_KEY"].

(** [repr] of a list of strings, for the message of [EnvironmentError]. *)
Definition repr_list (l : list string) : string :=
  "[" +:+ String.concat ", " ((fun s => "'" +:+ s +:+ "'") <$> l) +:+ "]".

(** Lines 277-288. [dotenv_values] is what [.env] binds; the result is
    [os.environ] after the check, or the exception raised. *)
Definition check_configuration (dotenv_values : gmap string (option string))
    (environ : gmap string string) : exn + gmap string string :=
  let (loaded, environ) := dotenv.load_dotenv dotenv_values true environ in
  if negb loaded then inl (Exception "Couldn't load .env file")
  else
    let missing := filter (fun var => environ !! var = None) envVars in
    match missing with
    | [] => inr environ
    | _ :: _ =>
        inl (EnvironmentError
               ("These environment variables are missing: "
                +:+ repr_list missing))
    end.

(** The credential is in neither source: the process environment lacks
    it, and [.env] does not bind it to a value. *)
Definition credential_absent (dotenv_values : gmap string (option string))
    (environ : gmap string string) : Prop :=
  environ !! "OPENAI_API_KEY" = None
  /\ (dotenv_values !! "OPENAI_API_KEY" = None
      \/ dotenv_values !! "OPENAI_API_KEY" = Some None).

(* ================================================================= *)
(** ** Cell 2, lines 295-308: the embedding client *)

Definition openai_embed_model : string := "text-embedding-ada-002".

(** What the service answers: an object that should hold a list under
    [data], whose entries should hold a vector under [embedding]. *)
Record datum : Type := { embedding : option EmbeddingVector }.
Record response : Type := { data : option (list datum) }.

(** What the cells print or display. *)
Inductive output : Type :=
| OutText (s : string)
| OutFrame (df : pd.frame)
| OutGroupCount (df : pd.frame) (by_ : string).

(** The calls through which the notebook meets its environment. *)
Variant notebookE : Type -> Type :=
| Embedding_create (input : list value) (engine : string)
    : notebookE (exn + response)
| print (out : output) : notebookE unit
| time_sleep (secs : Z) : notebookE unit
| to_pickle (df : pd.frame) (path : string) : notebookE unit.

(** [response['data'][0]['embedding']]: each of the three lookups can
    raise. *)
Definition response_embedding (r : response) : exn + EmbeddingVector :=
  match data r with
  | None => inl (KeyError "data")
  | Some [] => inl (IndexError "list index out of range")
  | Some (d :: _) =>
      match embedding d with
      | None => inl (KeyError "embedding")
      | Some v => inr v
      end
  end.

(** One pass through the body of [while not done] (lines 300-306), from the
    current [embedding_list]: the [try] block appends and sets [done]; an
    exception from the call or from reading the response is printed and
    followed by the sleep, [embedding_list] and [done] being as they
    were. The result is the pair [(embedding_list, done)]. *)
Definition attempt (text : value) (embedding_list : list EmbeddingVector)
  : itree notebookE (list EmbeddingVector * bool) :=
  r <- ITree.trigger (Embedding_create [text] openai_embed_model);;
  match let! response := r in response_embedding response with
  | inr v => Ret (embedding_list ++ [v], true)
  | inl e =>
      ITree.trigger
        (print (OutText ("Exception occurred: " +:+ str_exn e
                         +:+ ". Retrying in 5 seconds...")));;
      ITree.trigger (time_sleep 5);;
      Ret (embedding_list, false)
  end.

(** The test of [while not done] and one turn of the loop, on the pair
    [(embedding_list, done)]: leave with [embedding_list], or go round. *)
Definition while_not_done (text : value) (st : list EmbeddingVector * bool)
  : itree notebookE (list EmbeddingVector * bool + list EmbeddingVector) :=
  let (embedding_list, done) := st in
  if done then Ret (inr embedding_list)
  else st' <- attempt text embedding_list;; Ret (inl st').

(** Lines 298-306: [done = False], then the loop, for one [text]. *)
Definition embed_text (text : value) (embedding_list : list EmbeddingVector)
  : itree notebookE (list EmbeddingVector) :=
  ITree.iter (while_not_done text) (embedding_list, false).

(** Line 297: the [for] loop over [text_list], threading
    [embedding_list]. The progress bar of [tqdm] only watches the
    iteration. *)
Fixpoint for_text (text_list : list value)
    (embedding_list : list EmbeddingVector)
  : itree notebookE (list EmbeddingVector) :=
  match text_list with
  | [] => Ret embedding_list
  | text :: text_list' =>
      embedding_list' <- embed_text text embedding_list;;
      for_text text_list' embedding_list'
  end.

(** [def get_embeddings(text_list)]. *)
Definition get_embeddings (text_list : list value)
  : itree notebookE (list EmbeddingVector) :=
  for_text text_list [].

(* ================================================================= *)
(** ** The notebook, cell after cell *)

(** Lines 310-311 and the cells that follow: the embeddings become the
    column [openaiEmbeddings]; the frame is displayed, its group counts are
    printed, and it is pickled. An exception ends the run of the notebook
    where it is raised. *)
Definition build_and_save (df_combined : pd.frame)
    (embedding_results : list EmbeddingVector)
  : itree notebookE (exn + pd.frame) :=
  match pd.setitem df_combined "openaiEmbeddings" (Vec <$> embedding_results) with
  | inl e => Ret (inl e)
  | inr df_combined =>
      ITree.trigger (print (OutFrame df_combined));;
      ITree.trigger (print (OutGroupCount df_combined "type"));;
      ITree.trigger (to_pickle df_combined "data/text.pkl");;
      Ret (inr df_combined)
  end.

(** Cell 2 from the frame of cell 1. *)
Definition cell_2 (dotenv_values : gmap string (option string))
    (environ : gmap string string) (df_combined : pd.frame)
  : itree notebookE (exn + pd.frame) :=
  match check_configuration dotenv_values environ with
  | inl e => Ret (inl e)
  | inr _ =>
      match pd.getitem df_combined "text" with
      | inl e => Ret (inl e)
      | inr text_list =>
          embedding_results <- get_embeddings text_list;;
          build_and_save df_combined embedding_results
      end
  end.

(** The whole run: the files [fs], the bindings of [.env] and the process
    environment are its inputs. *)
Definition notebook (fs : gmap string string)
    (dotenv_values : gmap string (option string))
    (environ : gmap string string)
  : itree notebookE (exn + pd.frame) :=
  match df_combined fs with
  | inl e => Ret (inl e)
  | inr df_combined =>
      ITree.trigger (print (OutFrame df_combined));;
      cell_2 dotenv_values environ df_combined
  end.

(* ================================================================= *)
(** ** Running the notebook against a service *)

(** What happened, in order: every call with its outcome. *)
Inductive event : Type :=
| EvCreate (input : list value) (engine : string) (result : exn + response)
| EvPrint (out : output)
| EvSleep (secs : Z)
| EvPickle (df : pd.frame) (path : string).

(** Readings of a trace. *)
Definition is_create (ev : event) : bool :=
  match ev with EvCreate _ _ _ => true | _ => false end.

Definition is_pickle (ev : event) : bool :=
  match ev with EvPickle _ _ => true | _ => false end.

(** The number of calls made to the service. *)
Definition service_calls (tr : list event) : nat :=
  length (filter (fun ev => is_create ev = true) tr).

(** The successful calls, told by the shape of what the service answered
    and not by what the client made of it: the answer is a response, its
    [data] has a first entry, and that entry has an [embedding]. The
    reading gives the input of the call and that vector. *)
Definition success (ev : event) : option (list value * EmbeddingVector) :=
  match ev with
  | EvCreate input _
      (inr {| data := Some ({| embedding := Some v |} :: _) |}) =>
      Some (input, v)
  | _ => None
  end.

Definition successes (tr : list event)
  : list (list value * EmbeddingVector) :=
  omap success tr.

(** The failed calls, told by the shape of the answer, each with the
    exception that Python raises on it: the call itself raised (network or
    service error), or the response is malformed, having no [data], an
    empty [data], or a first entry without [embedding]. *)
Definition failure (r : exn + response) : option exn :=
  match r with
  | inl e => Some e
  | inr {| data := None |} => Some (KeyError "data")
  | inr {| data := Some [] |} => Some (IndexError "list index out of range")
  | inr {| data := Some ({| embedding := None |} :: _) |} =>
      Some (KeyError "embedding")
  | inr {| data := Some ({| embedding := Some _ |} :: _) |} => None
  end.

(** What one failed attempt on [text] leaves in the trace. *)
Definition failed_attempt (text : value) (r : exn + response) (e : exn)
  : list event :=
  [EvCreate [text] openai_embed_model r;
   EvPrint (OutText ("Exception occurred: " +:+ str_exn e
                     +:+ ". Retrying in 5 seconds..."));
   EvSleep 5].

(** How the client got the vector of one record: the outcomes it took as
    failures, each with the exception printed, then the response it
    accepted. *)
Definition outcome : Type := list ((exn + response) * exn) * response.

Definition outcome_ok (o : outcome) (v : EmbeddingVector) : Prop :=
  Forall (fun re => failure re.1 = Some re.2) o.1
  /\ exists ds, o.2 = {| data := Some ({| embedding := Some v |} :: ds) |}.

(** The trace of the loop for one record with that outcome. *)
Definition record_trace (text : value) (o : outcome) : list event :=
  concat ((fun re => failed_attempt text re.1 re.2) <$> o.1)
  ++ [EvCreate [text] openai_embed_model (inr o.2)].

Section Run.

(** The embedding service is any machine with a state of its own that
    answers a request with an exception or a response. *)
Context {S : Type}.
Variable service : S -> list value -> string -> (exn + response) * S.

Record World : Type := { svc : S; trace : list event }.

Definition handle {T : Type} (e : notebookE T) (w : World) : T * World :=
  match e in notebookE T return T * World with
  | Embedding_create input engine =>
      let (r, s') := service (svc w) input engine in
      (r, {| svc := s'; trace := trace w ++ [EvCreate input engine r] |})
  | print out =>
      (tt, {| svc := svc w; trace := trace w ++ [EvPrint out] |})
  | time_sleep secs =>
      (tt, {| svc := svc w; trace := trace w ++ [EvSleep secs] |})
  | to_pickle df path =>
      (tt, {| svc := svc w; trace := trace w ++ [EvPickle df path] |})
  end.

(** The same meaning of the events as a handler into the state monad of
    the library, for [interp_state]. *)
Definition handle_state (T : Type) (e : notebookE T)
  : Monads.stateT World (itree void1) T :=
  fun w => Ret ((handle e w).2, (handle e w).1).

(** After a turn of [ITree.iter]: go round again, one silent step later,
    or leave with the result. *)
Definition next_turn {I R : Type} (body : I -> itree notebookE (I + R))
    (lr : I + R) : itree notebookE R :=
  match lr with
  | inl i => Tau (ITree.iter body i)
  | inr r => Ret r
  end.

(** At most [fuel] steps of a program from the world [w]: its result
    and the world it leaves, or [None] when the steps do not suffice. *)
Fixpoint run {R : Type} (fuel : nat) (t : itree notebookE R) (w : World)
  : option (R * World) :=
  match fuel with
  | O => None
  | Datatypes.S fuel' =>
      match observe t with
      | RetF r => Some (r, w)
      | TauF t' => run fuel' t' w
      | VisF e k => let (x, w') := handle e w in run fuel' (k x) w'
      end
  end.

(** The calls of a trace are what the service answers from the state [s],
    one after the other, and they leave it in the state [s']. *)
Fixpoint answered (s : S) (tr : list event) (s' : S) : Prop :=
  match tr with
  | [] => s = s'
  | EvCreate input engine r :: tr' =>
      r = (service s input engine).1
      /\ answered (service s input engine).2 tr' s'
  | _ :: tr' => answered s tr' s'
  end.

(** One pass through the loop body as a function: the call, then either
    the append or the message and the sleep. *)
Definition attempt_step (text : value)
    (embedding_list : list EmbeddingVector) (w : World)
  : (list EmbeddingVector * bool) * World :=
  let (r, s') := service (svc w) [text] openai_embed_model in
  match let! response := r in response_embedding response with
  | inr v =>
      ((embedding_list ++ [v], true),
       {| svc := s';
          trace := trace w ++ [EvCreate [text] openai_embed_model r] |})
  | inl e =>
      ((embedding_list, false),
       {| svc := s'; trace := trace w ++ failed_attempt text r e |})
  end.

End Run.

Arguments World : clear implicits.


(* ================================================================= *)
(** ** A service stub and a small corpus, for running the model *)

Definition well_formed (v : EmbeddingVector) : response :=
  {| data := Some [{| embedding := Some v |}] |}.

(** A stub that answers [bad] as long as failures are left, and from then
    on the well-formed response holding [embed input]. Its state is the
    number of failures left. *)
Definition fails_then_succeeds (bad : exn + response)
    (embed : list value -> EmbeddingVector)
  : nat -> list value -> string -> (exn + response) * nat :=
  fun left input engine =>
    match left with
    | O => (inr (well_formed (embed input)), O)
    | Datatypes.S left' => (bad, left')
    end.

Definition demo_embed (input : list value) : EmbeddingVector :=
  match input with
  | [Str (String "G" _)] => [0.5%float; (-0.25)%float]
  | _ => [0.125%float; 0.75%float]
  end.

Definition demo_fs : gmap string string :=
  <["docs/goats.txt" := "Goats" +:+ nl +:+ "Grazing" +:+ nl]>
  (<["docs/gravity.txt" := "LIGO" +:+ nl]>
  (<["docs/blackholes.txt" := "Black holes" +:+ nl]>
  (<["docs/invasivegoats.txt" := "Islands" +:+ nl +:+ "Seabirds"]> ∅))).

Definition demo_texts : list value := [Str ("Goats" +:+ nl); Str ("LIGO" +:+ nl)].

Definition demo_service
  : nat -> list value -> string -> (exn + response) * nat :=
  fails_then_succeeds (inl (APIError "Rate limit")) demo_embed.

Definition demo_world (failures : nat) : World nat :=
  {| svc := failures; trace := [] |}.

(** What is expected of the runs below, written out by hand. A failed
    attempt of the demo: the call that raises, the message and the sleep;
    and a call answered with a vector. *)
Definition rate_limited (text : string) : list event :=
  [EvCreate [Str text] "text-embedding-ada-002" (inl (APIError "Rate limit"));
   EvPrint (OutText "Exception occurred: Rate limit. Retrying in 5 seconds...");
   EvSleep 5].

Definition answered_with (text : string) (v : EmbeddingVector) : event :=
  EvCreate [Str text] "text-embedding-ada-002"
    (inr {| data := Some [{| embedding := Some v |}] |}).

(** The client on [demo_texts] when the first two calls fail. *)
Definition demo_client_run : list EmbeddingVector * World nat :=
  ([[0.5%float; (-0.25)%float]; [0.125%float; 0.75%float]],
   {| svc := 0;
      trace := rate_limited ("Goats" +:+ nl) ++ rate_limited ("Goats" +:+ nl)
               ++ [answered_with ("Goats" +:+ nl) [0.5%float; (-0.25)%float];
                   answered_with ("LIGO" +:+ nl) [0.125%float; 0.75%float]] |}).

(** The loop over the first text alone. *)
Definition demo_prefix_run : list EmbeddingVector * World nat :=
  ([[0.5%float; (-0.25)%float]],
   {| svc := 0;
      trace := rate_limited ("Goats" +:+ nl) ++ rate_limited ("Goats" +:+ nl)
               ++ [answered_with ("Goats" +:+ nl)
                     [0.5%float; (-0.25)%float]] |}).

(** A stub whose failures are malformed responses: [data] is empty. *)
Definition malformed_service
  : nat -> list value -> string -> (exn + response) * nat :=
  fails_then_succeeds (inr {| data := Some [] |}) demo_embed.

Definition index_error (text : string) : list event :=
  [EvCreate [Str text] "text-embedding-ada-002" (inr {| data := Some [] |});
   EvPrint (OutText
     "Exception occurred: list index out of range. Retrying in 5 seconds...");
   EvSleep 5].

(** The client on [demo_texts] when the first answer is malformed. *)
Definition malformed_client_run : list EmbeddingVector * World nat :=
  ([[0.5%float; (-0.25)%float]; [0.125%float; 0.75%float]],
   {| svc := 0;
      trace := index_error ("Goats" +:+ nl)
               ++ [answered_with ("Goats" +:+ nl) [0.5%float; (-0.25)%float];
                   answered_with ("LIGO" +:+ nl) [0.125%float; 0.75%float]] |}).

Definition malformed_prefix_run : list EmbeddingVector * World nat :=
  ([[0.5%float; (-0.25)%float]],
   {| svc := 0;
      trace := index_error ("Goats" +:+ nl)
               ++ [answered_with ("Goats" +:+ nl)
                     [0.5%float; (-0.25)%float]] |}).

Definition demo_dotenv : gmap string (option string) :=
  {["OPENAI_API_KEY" := Some "sk-demo"]}.

(** The frame of cell 1 on [demo_fs], and the frame that the notebook ends
    with. *)
Definition demo_assembled : pd.frame :=
  {| pd.index := [0; 1; 2; 3; 4; 5];
     pd.columns :=
       [("type", [Str "goats"; Str "goats"; Str "gravity"; Str "blackholes";
                  Str "invasivegoats"; Str "invasivegoats"]);
        ("text", [Str ("Goats" +:+ nl); Str ("Grazing" +:+ nl);
                  Str ("LIGO" +:+ nl); Str ("Black holes" +:+ nl);
                  Str ("Islands" +:+ nl); Str "Seabirds"])] |}.

Definition demo_frame : pd.frame :=
  {| pd.index := [0; 1; 2; 3; 4; 5];
     pd.columns :=
       [("type", [Str "goats"; Str "goats"; Str "gravity"; Str "blackholes";
                  Str "invasivegoats"; Str "invasivegoats"]);
        ("text", [Str ("Goats" +:+ nl); Str ("Grazing" +:+ nl);
                  Str ("LIGO" +:+ nl); Str ("Black holes" +:+ nl);
                  Str ("Islands" +:+ nl); Str "Seabirds"]);
        ("openaiEmbeddings",
         [Vec [0.5%float; (-0.25)%float]; Vec [0.5%float; (-0.25)%float];
          Vec [0.125%float; 0.75%float]; Vec [0.125%float; 0.75%float];
          Vec [0.125%float; 0.75%float]; Vec [0.125%float; 0.75%float]])] |}.

(** The whole notebook on [demo_fs] when the first two calls fail: the
    frame it ends with and the world it leaves. *)
Definition demo_notebook_run : (exn + pd.frame) * World nat :=
  (inr demo_frame,
   {| svc := 0;
      trace :=
        [EvPrint (OutFrame demo_assembled)]
        ++ rate_limited ("Goats" +:+ nl) ++ rate_limited ("Goats" +:+ nl)
        ++ [answered_with ("Goats" +:+ nl) [0.5%float; (-0.25)%float];
            answered_with ("Grazing" +:+ nl) [0.5%float; (-0.25)%float];
            answered_with ("LIGO" +:+ nl) [0.125%float; 0.75%float];
            answered_with ("Black holes" +:+ nl) [0.125%float; 0.75%float];
            answered_with ("Islands" +:+ nl) [0.125%float; 0.75%float];
            answered_with "Seabirds" [0.125%float; 0.75%float]]
        ++ [EvPrint (OutFrame demo_frame);
            EvPrint (OutGroupCount demo_frame "type");
            EvPickle demo_frame "data/text.pkl"] |}).

(** Four files without a line. *)
Definition empty_fs : gmap string string :=
  <["docs/goats.txt" := ""]>
  (<["docs/gravity.txt" := ""]>
  (<["docs/blackholes.txt" := ""]>
  (<["docs/invasivegoats.txt" := ""]> ∅))).

(** A file with a CR LF terminator and an unterminated last line. *)
Definition crlf_fs : gmap string string :=
  <["docs/goats.txt" := "Goats" +:+ crnl +:+ "Grazing"]> ∅.

(** A file with all three terminators and an unterminated last line. *)
Definition mixed_fs : gmap string string :=
  <["docs/goats.txt" := "Goats" +:+ crnl +:+ "Grazing" +:+ cr +:+ "Herds"
                        +:+ nl +:+ "Kids"]> ∅.

(** A file whose only terminator is a CR. *)
Definition cr_fs : gmap string string :=
  <["docs/goats.txt" := "Goats" +:+ cr +:+ "Grazing"]> ∅.

(* ================================================================= *)
(** ** Further readings of the notebook, used by the later sections *)


(** The number of LF in a text. *)
Fixpoint count_LF (s : string) : nat :=
  match s with
  | EmptyString => 0
  | String c s' => (if Ascii.eqb c LF then 1 else 0) + count_LF s'
  end.

(** *** The terminators of a file

    What text mode does is stated on the file written as its terminated
    lines: each a body that holds neither CR nor LF, with the terminator
    that follows it, and after the last terminator a text [rest] that
    holds neither. *)
Inductive terminator : Type := T_LF | T_CRLF | T_CR.

Definition terminator_text (t : terminator) : string :=
  match t with
  | T_LF => nl
  | T_CRLF => crnl
  | T_CR => cr
  end.

(** A text that holds neither CR nor LF. *)
Fixpoint plain (s : string) : bool :=
  match s with
  | EmptyString => true
  | String c s' => negb (Ascii.eqb c CR) && negb (Ascii.eqb c LF) && plain s'
  end.

Definition starts_with_LF (s : string) : bool :=
  match s with
  | EmptyString => false
  | String c _ => Ascii.eqb c LF
  end.

Fixpoint file_text (ls : list (string * terminator)) (rest : string)
  : string :=
  match ls with
  | [] => rest
  | (body, t) :: ls' => body +:+ terminator_text t +:+ file_text ls' rest
  end.

(** The terminators are the ones of the file: a CR that is a terminator
    of its own is not followed by LF, with which it would be one CR LF. *)
Fixpoint lone_CR_ok (ls : list (string * terminator)) (rest : string)
  : bool :=
  match ls with
  | [] => true
  | (_, t) :: ls' =>
      match t with
      | T_CR => negb (starts_with_LF (file_text ls' rest))
      | _ => true
      end && lone_CR_ok ls' rest
  end.

(** The text ends with a terminator: its last character is LF or CR. *)
Fixpoint ends_with_terminator (s : string) : bool :=
  match s with
  | EmptyString => false
  | String c s' =>
      match s' with
      | EmptyString => Ascii.eqb c LF || Ascii.eqb c CR
      | String _ _ => ends_with_terminator s'
      end
  end.

(** Every text is written in that way: its terminated lines and the rest,
    found from the end of the text. *)
Fixpoint cut_lines (s : string) : list (string * terminator) * string :=
  match s with
  | EmptyString => ([], EmptyString)
  | String c s' =>
      let (ls, rest) := cut_lines s' in
      if Ascii.eqb c LF then ((EmptyString, T_LF) :: ls, rest)
      else if Ascii.eqb c CR then
        match ls with
        | (EmptyString, T_LF) :: ls' => ((EmptyString, T_CRLF) :: ls', rest)
        | _ => ((EmptyString, T_CR) :: ls, rest)
        end
      else
        match ls with
        | [] => ([], String c rest)
        | (body, t) :: ls' => ((String c body, t) :: ls', rest)
        end
  end.

(** The lines that text mode and [readlines] make of a file written as
    its terminated lines: each body with one LF, then the rest when there
    is one. *)
Definition lines_read (ls : list (string * terminator)) (rest : string)
  : list string :=
  ((fun l => l.1 +:+ nl) <$> ls)
  ++ (if String.eqb rest EmptyString then [] else [rest]).

(** A list of lines as [readlines] gives them: no line is empty, none has
    an LF before its end, and each line but the last ends with LF. *)
Definition line_ok (l : string) : bool :=
  negb (String.eqb l EmptyString) && LF_only_last l.

Fixpoint lines_ok (ls : list string) : bool :=
  match ls with
  | [] => true
  | l :: ls' =>
      match ls' with
      | [] => line_ok l
      | _ :: _ => line_ok l && ends_with_LF l && lines_ok ls'
      end
  end.

(** A frame is rectangular when each of its columns has one cell per row
    label. *)
Definition rectangular (df : pd.frame) : Prop :=
  Forall (fun kc => length kc.2 = length (pd.index df)) (pd.columns df).

(** [isna]: the missing value. *)
Definition is_null (v : value) : bool :=
  match v with
  | NaN => true
  | _ => false
  end.

(** Cell 3, line 335: [df.groupby(by).count()]. The groups are the
    distinct values of the column [by], missing values left out
    ([dropna=True]), in ascending order ([sort=True]); for each group and
    each other column, in column order, the result holds the number of
    rows of the group whose cell is not missing. A missing column [by]
    raises [KeyError]; a list as key is unhashable and raises
    [TypeError]. *)
Inductive groupby_error : Type :=
| GroupKeyError (key : string)
| GroupTypeError (msg : string).

Definition is_Vec (v : value) : bool :=
  match v with
  | Vec _ => true
  | _ => false
  end.

Definition group_keys (keys : list value) : list string :=
  merge_sort String.le (remove_dups (omap str_of keys)).

Definition count_in_group (label : string) (keys cells : list value) : nat :=
  length (filter (fun kc => str_of kc.1 = Some label /\ is_null kc.2 = false)
                 (zip keys cells)).

Definition groupby_count (df : pd.frame) (by_ : string)
  : groupby_error + list (string * list (string * nat)) :=
  match pd.lookup_column by_ (pd.columns df) with
  | None => inl (GroupKeyError by_)
  | Some keys =>
      if existsb is_Vec keys
      then inl (GroupTypeError "unhashable type: 'list'")
      else
        let others :=
          filter (fun kc => kc.1 <> by_) (pd.columns df) in
        inr ((fun label =>
                (label,
                 (fun kc => (kc.1, count_in_group label keys kc.2))
                   <$> others))
               <$> group_keys keys)
  end.

(** The number of lines that the documents labelled [label] have. *)
Definition rows_of (label : string) (docs : list (string * list string))
  : nat :=
  sum_list ((fun d => length d.2) <$> filter (fun d => d.1 = label) docs).

(** The four documents in the ascending order of their labels. *)
Definition documents_by_label (goats_lines gravity_lines blackholes_lines
    invasivegoats_lines : list string) : list (string * list string) :=
  [("blackholes", blackholes_lines); ("goats", goats_lines);
   ("gravity", gravity_lines); ("invasivegoats", invasivegoats_lines)].

(** More readings of a trace: the calls that made the client retry, the
    seconds slept, the retry messages printed, the frames written. *)
Definition is_failed_call (ev : event) : bool :=
  match ev with
  | EvCreate _ _ r =>
      match failure r with
      | Some _ => true
      | None => false
      end
  | _ => false
  end.

Definition failed_calls (tr : list event) : nat :=
  length (filter (fun ev => is_failed_call ev = true) tr).

Fixpoint slept (tr : list event) : Z :=
  match tr with
  | [] => 0
  | EvSleep secs :: tr' => (secs + slept tr')%Z
  | _ :: tr' => slept tr'
  end.

Definition is_message (ev : event) : bool :=
  match ev with
  | EvPrint (OutText _) => true
  | _ => false
  end.

Definition messages (tr : list event) : nat :=
  length (filter (fun ev => is_message ev = true) tr).

(** What each call to the service was made with: its input and its
    engine. *)
Definition call_input (ev : event) : option (list value * string) :=
  match ev with
  | EvCreate input engine _ => Some (input, engine)
  | _ => None
  end.

Definition call_inputs (tr : list event) : list (list value * string) :=
  omap call_input tr.

Definition written (ev : event) : option (pd.frame * string) :=
  match ev with
  | EvPickle df path => Some (df, path)
  | _ => None
  end.

(** A service that never succeeds: it answers [bad] and counts the
    calls. *)
Definition always_fails (bad : exn + response)
  : nat -> list value -> string -> (exn + response) * nat :=
  fun calls input engine => (bad, Datatypes.S calls).
(* ================================================================= *)
(** ** Facts about the loader *)

Lemma concat_readlines (s : string) : String.concat "" (readlines s) = s.
Proof.
  induction s as [|c s IH]; simpl; [done|].
  destruct (Ascii.eqb c LF) eqn:Hc.
  - simpl. destruct (readlines s) eqn:Hr; simpl in *; by rewrite <- IH.
  - destruct (readlines s) as [|l ls] eqn:Hr; simpl in *.
    + by rewrite <- IH.
    + destruct ls; simpl in *; by rewrite <- IH.
Qed.

Lemma readlines_nil (s : string) : readlines s = [] -> s = EmptyString.
Proof.
  destruct s as [|c s]; simpl; [done|].
  destruct (Ascii.eqb c LF); [done|]. by destruct (readlines s).
Qed.

Lemma ends_with_LF_cons (c : Ascii.ascii) (s : string) :
  s <> EmptyString -> ends_with_LF (String c s) = ends_with_LF s.
Proof. by destruct s. Qed.

Lemma LF_only_last_cons (c : Ascii.ascii) (s : string) :
  Ascii.eqb c LF = false -> LF_only_last s = true ->
  LF_only_last (String c s) = true.
Proof. intros Hc Hs. destruct s; simpl in *; [done|]. by rewrite Hc, Hs. Qed.

(** Every line is a non-empty unit whose only LF, if any, ends it. *)
Lemma readlines_units (s : string) :
  Forall (fun l => l <> EmptyString /\ LF_only_last l = true) (readlines s).
Proof.
  induction s as [|c s IH]; simpl; [constructor|].
  destruct (Ascii.eqb c LF) eqn:Hc.
  - constructor; [done|apply IH].
  - destruct (readlines s) as [|l ls]; [by repeat constructor|].
    inversion_clear IH as [|? ? [Hl1 Hl2] Hls]. constructor; [|done].
    split; [done|]. by apply LF_only_last_cons.
Qed.

(** Every line that is followed by another one ends with LF. *)
Lemma readlines_terminated (s : string) (i : nat) (l : string) :
  readlines s !! i = Some l -> Datatypes.S i < length (readlines s) ->
  ends_with_LF l = true.
Proof.
  revert i l. induction s as [|c s IH]; intros i l; simpl; [done|].
  destruct (Ascii.eqb c LF) eqn:Hc.
  - destruct i as [|i]; simpl.
    + intros [= <-] _. simpl. done.
    + intros Hl Hlen. apply (IH i l Hl). lia.
  - destruct (readlines s) as [|l' ls] eqn:Hr; simpl.
    + destruct i; simpl; [lia|done].
    + destruct i as [|i]; simpl.
      * intros [= <-] Hlen.
        pose proof (readlines_units s) as Hu. rewrite Hr in Hu.
        inversion_clear Hu as [|? ? [Hne _] _].
        rewrite ends_with_LF_cons by done.
        apply (IH 0 l'); simpl; [done|lia].
      * intros Hl Hlen. apply (IH (Datatypes.S i) l); simpl; [done|lia].
Qed.

(** The last line ends with LF exactly when the text does. *)
Lemma readlines_last (s l : string) :
  last (readlines s) = Some l -> ends_with_LF l = ends_with_LF s.
Proof.
  revert l. induction s as [|c s IH]; intros l; [done|].
  cbn [readlines].
  pose proof (readlines_units s) as Hu.
  destruct (Ascii.eqb c LF) eqn:Hc; destruct (readlines s) as [|l' ls] eqn:Hr.
  - intros [= <-]. apply readlines_nil in Hr. by subst s.
  - rewrite last_cons_cons. intros Hl. rewrite (IH l Hl).
    symmetry. apply ends_with_LF_cons. by intros ->.
  - intros [= <-]. apply readlines_nil in Hr. by subst s.
  - inversion_clear Hu as [|? ? [Hne _] _].
    assert (s <> EmptyString) as Hs by (by intros ->).
    rewrite (ends_with_LF_cons c s Hs).
    destruct ls as [|l'' ls].
    + intros [= <-]. rewrite ends_with_LF_cons by done. by apply IH.
    + rewrite !last_cons_cons. rewrite last_cons_cons in IH. apply IH.
Qed.

(** Nothing is left of a CR after the translation, and a text without CR
    goes through unchanged. *)
Lemma universal_newlines_no_CR (s : string) :
  has_CR (universal_newlines s) = false.
Proof.
  cut (has_CR (universal_newlines s) = false
       /\ forall c, has_CR (universal_newlines (String c s)) = false);
    [by intros [? _]|].
  induction s as [|d s [IH1 IH2]].
  - split; [done|]. intros c. simpl. destruct (Ascii.eqb c CR) eqn:Hc; simpl; [done|].
    by rewrite Hc.
  - split; [apply IH2|]. intros c.
    change (universal_newlines (String c (String d s))) with
      (if Ascii.eqb c CR then
         if Ascii.eqb d LF then String LF (universal_newlines s)
         else String LF (universal_newlines (String d s))
       else String c (universal_newlines (String d s))).
    destruct (Ascii.eqb c CR) eqn:Hc.
    + destruct (Ascii.eqb d LF); cbn [has_CR]; [by rewrite IH1|by rewrite IH2].
    + cbn [has_CR]. by rewrite Hc, IH2.
Qed.

Lemma universal_newlines_id (s : string) :
  has_CR s = false -> universal_newlines s = s.
Proof.
  induction s as [|c s IH]; simpl; [done|].
  destruct (Ascii.eqb c CR); simpl; [done|]. intros Hs. by rewrite IH.
Qed.

(* ================================================================= *)
(** ** Facts about the terminators *)

Lemma append_cons (c : Ascii.ascii) (s1 s2 : string) :
  String c s1 +:+ s2 = String c (s1 +:+ s2).
Proof. reflexivity. Qed.

Lemma universal_newlines_cons (c : Ascii.ascii) (s : string) :
  Ascii.eqb c CR = false ->
  universal_newlines (String c s) = String c (universal_newlines s).
Proof. intros Hc. cbn [universal_newlines]. by rewrite Hc. Qed.

Lemma plain_cons (c : Ascii.ascii) (s : string) :
  plain (String c s) = true ->
  Ascii.eqb c CR = false /\ Ascii.eqb c LF = false /\ plain s = true.
Proof.
  cbn [plain]. intros [[Hc Hl]%andb_prop Hs]%andb_prop.
  by rewrite negb_true_iff in Hc, Hl.
Qed.

Lemma universal_newlines_plain_app (body s : string) :
  plain body = true ->
  universal_newlines (body +:+ s) = body +:+ universal_newlines s.
Proof.
  induction body as [|c body IH]; [done|].
  intros (Hc & _ & Hb)%plain_cons.
  rewrite !append_cons, universal_newlines_cons by done. by rewrite IH.
Qed.

Lemma universal_newlines_plain (s : string) :
  plain s = true -> universal_newlines s = s.
Proof.
  induction s as [|c s IH]; [done|]. intros (Hc & _ & Hs)%plain_cons.
  rewrite universal_newlines_cons by done. by rewrite IH.
Qed.

(** Each terminator becomes one LF. *)
Lemma universal_newlines_terminator (t : terminator) (s : string) :
  (t = T_CR -> starts_with_LF s = false) ->
  universal_newlines (terminator_text t +:+ s) = nl +:+ universal_newlines s.
Proof.
  intros Hs. destruct t; [done|done|].
  specialize (Hs eq_refl). destruct s as [|c s]; [done|].
  cbn [starts_with_LF] in Hs.
  change (terminator_text T_CR +:+ String c s) with (String CR (String c s)).
  cbn [universal_newlines]. change (Ascii.eqb CR CR) with true. cbv iota.
  by rewrite Hs.
Qed.

Lemma readlines_plain (rest : string) :
  plain rest = true ->
  readlines rest = if String.eqb rest EmptyString then [] else [rest].
Proof.
  induction rest as [|c rest IH]; [done|]. intros (_ & Hl & Hr)%plain_cons.
  cbn [readlines]. rewrite Hl, (IH Hr). by destruct rest.
Qed.

Lemma readlines_body (body s : string) :
  plain body = true ->
  readlines (body +:+ nl +:+ s) = (body +:+ nl) :: readlines s.
Proof.
  induction body as [|c body IH]; [done|]. intros (_ & Hl & Hb)%plain_cons.
  rewrite !append_cons. cbn [readlines]. by rewrite Hl, (IH Hb).
Qed.

(** A file written as its terminated lines is read as those lines, each
    with one LF in the place of its terminator. *)
Lemma readlines_file_text (ls : list (string * terminator)) (rest : string) :
  Forall (fun l => plain l.1 = true) ls -> plain rest = true ->
  lone_CR_ok ls rest = true ->
  readlines (universal_newlines (file_text ls rest)) = lines_read ls rest.
Proof.
  intros Hls Hrest. unfold lines_read.
  induction Hls as [|[body t] ls Hbody _ IH]; intros Hok.
  - cbn [file_text fmap list_fmap app].
    rewrite universal_newlines_plain by done. by apply readlines_plain.
  - cbn [lone_CR_ok] in Hok. apply andb_prop in Hok as [Ht Hok].
    cbn [file_text fst] in *.
    rewrite universal_newlines_plain_app by done.
    rewrite universal_newlines_terminator.
    + rewrite readlines_body by done. rewrite fmap_cons. cbn [app fst].
      by rewrite IH.
    + intros ->. by apply negb_true_iff.
Qed.

Lemma plain_not_LF (s : string) : plain s = true -> starts_with_LF s = false.
Proof. destruct s as [|c s]; [done|]. by intros (_ & ? & _)%plain_cons. Qed.

(** Every text is the text of its cut. *)
Lemma cut_lines_file_text (s : string) :
  file_text (cut_lines s).1 (cut_lines s).2 = s
  /\ Forall (fun l => plain l.1 = true) (cut_lines s).1
  /\ plain (cut_lines s).2 = true
  /\ lone_CR_ok (cut_lines s).1 (cut_lines s).2 = true.
Proof.
  induction s as [|c s (Htext & Hls & Hrest & Hok)]; [by repeat split|].
  cbn [cut_lines]. destruct (cut_lines s) as [ls rest]. cbn [fst snd] in *.
  destruct (Ascii.eqb c LF) eqn:Hlf.
  { apply Ascii.eqb_eq in Hlf as ->. cbn [fst snd file_text lone_CR_ok andb].
    rewrite Htext. repeat split; try done. by constructor. }
  destruct (Ascii.eqb c CR) eqn:Hcr.
  - apply Ascii.eqb_eq in Hcr as ->.
    assert (file_text ((EmptyString, T_CR) :: ls) rest = String CR s
            /\ Forall (fun l => plain l.1 = true) ((EmptyString, T_CR) :: ls)
            /\ plain rest = true
            /\ (starts_with_LF s = false ->
                lone_CR_ok ((EmptyString, T_CR) :: ls) rest = true)) as Hlone.
    { cbn [file_text lone_CR_ok]. rewrite Htext.
      repeat split; try done; [by constructor|]. intros ->. done. }
    destruct ls as [|[body t] ls].
    + cbn [fst snd]. destruct Hlone as (? & ? & ? & Hl).
      repeat split; try done. apply Hl. cbn [file_text] in Htext. subst s.
      by apply plain_not_LF.
    + inversion_clear Hls as [|? ? Hbody Hls']. cbn [fst] in Hbody.
      destruct body as [|b body].
      * destruct t; cbn [fst snd].
        -- cbn [file_text lone_CR_ok andb] in *. subst s.
           repeat split; try done. by constructor.
        -- destruct Hlone as (? & ? & ? & Hl). repeat split; try done;
             apply Hl; by subst s.
        -- destruct Hlone as (? & ? & ? & Hl). repeat split; try done;
             apply Hl; by subst s.
      * apply plain_cons in Hbody as Hb. destruct Hb as (_ & Hb & _).
        destruct Hlone as (? & ? & ? & Hl). cbn [fst snd].
        repeat split; try done; apply Hl; by subst s.
  - destruct ls as [|[body t] ls]; cbn [fst snd].
    + cbn [file_text] in *. subst s. repeat split; try done.
      cbn [plain]. by rewrite Hlf, Hcr.
    + inversion_clear Hls as [|? ? Hbody Hls']. cbn [fst] in Hbody.
      cbn [file_text lone_CR_ok] in *. rewrite append_cons, Htext.
      repeat split; try done. constructor; [|done].
      cbn [fst plain]. by rewrite Hlf, Hcr.
Qed.

Lemma universal_newlines_not_empty (c : Ascii.ascii) (s : string) :
  universal_newlines (String c s) <> EmptyString.
Proof.
  cbn [universal_newlines]. destruct (Ascii.eqb c CR); [|done].
  destruct s as [|d s]; [done|]. by destruct (Ascii.eqb d LF).
Qed.

(** The translated text ends with LF exactly when the file ends with a
    terminator. *)
Lemma ends_with_LF_universal_newlines (s : string) :
  ends_with_LF (universal_newlines s) = ends_with_terminator s.
Proof.
  cut (ends_with_LF (universal_newlines s) = ends_with_terminator s
       /\ forall c, ends_with_LF (universal_newlines (String c s))
                    = ends_with_terminator (String c s));
    [by intros [? _]|].
  induction s as [|d s [IH1 IH2]].
  - split; [done|]. intros c. cbn.
    destruct (Ascii.eqb c CR) eqn:Hc; cbn; [by rewrite orb_true_r|].
    by rewrite orb_false_r.
  - split; [apply IH2|]. intros c.
    change (ends_with_terminator (String c (String d s)))
      with (ends_with_terminator (String d s)).
    change (universal_newlines (String c (String d s))) with
      (if Ascii.eqb c CR then
         if Ascii.eqb d LF then String LF (universal_newlines s)
         else String LF (universal_newlines (String d s))
       else String c (universal_newlines (String d s))).
    destruct (Ascii.eqb c CR).
    + destruct (Ascii.eqb d LF) eqn:Hd.
      * destruct s as [|e s].
        -- cbn. by rewrite Hd.
        -- rewrite ends_with_LF_cons by apply universal_newlines_not_empty.
           rewrite IH1. done.
      * rewrite ends_with_LF_cons by apply universal_newlines_not_empty.
        apply IH2.
    + rewrite ends_with_LF_cons by apply universal_newlines_not_empty.
      apply IH2.
Qed.

(* ================================================================= *)
(** ** Facts about frames *)

Lemma union_keys_seen (seen keys : list string) :
  Forall (fun k => k ∈ seen) keys -> pd.union_keys seen keys = [].
Proof.
  induction 1 as [|k keys Hk _ IH]; [done|].
  cbn [pd.union_keys]. by rewrite bool_decide_eq_true_2.
Qed.

Lemma union_keys_DataFrames (d : string * list string)
    (docs : list (string * list string)) :
  pd.union_keys []
    (concat ((fun df => (pd.columns df).*1)
               <$> ((fun d => pd.DataFrame d.1 d.2) <$> (d :: docs))))
  = ["type"; "text"].
Proof.
  rewrite !fmap_cons, concat_cons. cbn [pd.DataFrame pd.columns fmap list_fmap fst app].
  cbn [pd.union_keys].
  rewrite (bool_decide_eq_false_2 ("type" ∈ [])) by (by intros ?%elem_of_nil).
  rewrite (bool_decide_eq_false_2 ("text" ∈ ["type"])).
  2:{ intros [?|?%elem_of_nil]%elem_of_cons; done. }
  do 2 f_equal. apply union_keys_seen.
  induction docs as [|d' docs IH]; [constructor|].
  rewrite !fmap_cons, concat_cons. cbn [pd.DataFrame pd.columns fmap list_fmap fst app].
  repeat constructor. apply IH.
Qed.

Lemma column_type_DataFrames (docs : list (string * list string)) :
  concat (pd.column_or_NaN "type" <$> ((fun d => pd.DataFrame d.1 d.2) <$> docs))
  = (flat_records docs).*1.
Proof.
  unfold flat_records. induction docs as [|[label lines] docs IH]; [done|].
  rewrite !fmap_cons, !concat_cons, fmap_app, IH. f_equal.
  unfold pd.column_or_NaN, labelled. cbn. clear.
  induction lines as [|l lines IH]; [done|]. cbn. by rewrite IH.
Qed.

Lemma column_text_DataFrames (docs : list (string * list string)) :
  concat (pd.column_or_NaN "text" <$> ((fun d => pd.DataFrame d.1 d.2) <$> docs))
  = (flat_records docs).*2.
Proof.
  unfold flat_records. induction docs as [|[label lines] docs IH]; [done|].
  rewrite !fmap_cons, !concat_cons, fmap_app, IH. f_equal.
  unfold pd.column_or_NaN, labelled. cbn. clear.
  induction lines as [|l lines IH]; [done|]. cbn. by rewrite IH.
Qed.

Lemma index_DataFrames (docs : list (string * list string)) :
  length (concat (pd.index <$> ((fun d => pd.DataFrame d.1 d.2) <$> docs)))
  = length (flat_records docs).
Proof.
  unfold flat_records. induction docs as [|[label lines] docs IH]; [done|].
  rewrite !fmap_cons, !concat_cons, !length_app, IH. f_equal.
  unfold labelled. cbn. by rewrite length_seq, length_fmap.
Qed.

(** The frame that the assembler builds from at least one document. *)
Lemma assemble_frame (d : string * list string)
    (docs : list (string * list string)) :
  assemble (d :: docs) = inr (frame_of_records (flat_records (d :: docs))).
Proof.
  unfold assemble, pd.concat, pd.reset_index, frame_of_records.
  rewrite fmap_cons. rewrite <- (fmap_cons (fun d => pd.DataFrame d.1 d.2) d docs).
  cbn [try pd.index pd.columns].
  rewrite union_keys_DataFrames, index_DataFrames.
  by rewrite <- column_type_DataFrames, <- column_text_DataFrames.
Qed.

Lemma zip_fst_snd {A B : Type} (l : list (A * B)) : zip (l.*1) (l.*2) = l.
Proof. induction l as [|[a b] l IH]; [done|]. cbn. by rewrite IH. Qed.

Lemma records_frame_of_records (l : list (value * value)) :
  records (frame_of_records l) = l.
Proof. unfold records. cbn. apply zip_fst_snd. Qed.

Lemma records_frame_with_embeddings (l : list (value * value))
    (vs : list EmbeddingVector) :
  records (frame_with_embeddings l vs) = l.
Proof. unfold records. cbn. apply zip_fst_snd. Qed.

Lemma dataset_frame_with_embeddings (l : list (value * value))
    (vs : list EmbeddingVector) :
  dataset (frame_with_embeddings l vs) = zip l (Vec <$> vs).
Proof.
  unfold dataset. rewrite records_frame_with_embeddings. done.
Qed.

(** Cell 1 is the assembler on the four documents it reads. *)
Lemma df_combined_inv (fs : gmap string string) (df : pd.frame) :
  df_combined fs = inr df ->
  exists goats_lines gravity_lines blackholes_lines invasivegoats_lines,
    read_file fs "docs/goats.txt" = inr goats_lines
    /\ read_file fs "docs/gravity.txt" = inr gravity_lines
    /\ read_file fs "docs/blackholes.txt" = inr blackholes_lines
    /\ read_file fs "docs/invasivegoats.txt" = inr invasivegoats_lines
    /\ df = frame_of_records
             (flat_records (documents goats_lines gravity_lines
                              blackholes_lines invasivegoats_lines)).
Proof.
  unfold df_combined.
  destruct (read_file fs "docs/goats.txt") as [?|goats_lines]; [done|].
  destruct (read_file fs "docs/gravity.txt") as [?|gravity_lines]; [done|].
  destruct (read_file fs "docs/blackholes.txt") as [?|blackholes_lines]; [done|].
  destruct (read_file fs "docs/invasivegoats.txt") as [?|invasivegoats_lines];
    [done|].
  cbn [try]. intros H.
  exists goats_lines, gravity_lines, blackholes_lines, invasivegoats_lines.
  repeat (split; [done|]).
  pose proof (assemble_frame ("goats", goats_lines)
                [("gravity", gravity_lines); ("blackholes", blackholes_lines);
                 ("invasivegoats", invasivegoats_lines)]) as Ha.
  unfold assemble in Ha. cbn [fmap list_fmap fst snd] in Ha.
  rewrite Ha in H. by injection H as <-.
Qed.

(** The assignment of as many embeddings as the frame has rows. *)
Lemma setitem_frame_of_records (l : list (value * value))
    (vs : list EmbeddingVector) :
  length vs = length l ->
  pd.setitem (frame_of_records l) "openaiEmbeddings" (Vec <$> vs)
  = inr (frame_with_embeddings l vs).
Proof.
  intros Hlen. unfold pd.setitem.
  assert (pd.ensure_valid_index (frame_of_records l) (Vec <$> vs)
          = frame_of_records l) as ->.
  { unfold pd.ensure_valid_index. destruct l as [|r l]; [|done].
    by destruct vs. }
  cbn [frame_of_records pd.index pd.columns].
  rewrite length_fmap, length_seq, Hlen, Nat.eqb_refl. done.
Qed.

(** The three cases of [df[key] = value]. *)
Lemma setitem_same_length (df : pd.frame) (key : string) (val : list value) :
  length val = length (pd.index df) ->
  pd.setitem df key val
  = inr {| pd.index := pd.index df;
           pd.columns := pd.set_column key val (pd.columns df) |}.
Proof.
  intros Hlen. unfold pd.setitem.
  assert (pd.ensure_valid_index df val = df) as ->.
  { unfold pd.ensure_valid_index. destruct (pd.index df); [|done].
    by destruct val. }
  by rewrite Hlen, Nat.eqb_refl.
Qed.

Lemma setitem_length_mismatch (df : pd.frame) (key : string)
    (val : list value) :
  pd.index df <> [] -> length val <> length (pd.index df) ->
  pd.setitem df key val
  = inl (ValueError ("Length of values (" +:+ pretty (length val)
                     +:+ ") does not match length of index ("
                     +:+ pretty (length (pd.index df)) +:+ ")")).
Proof.
  intros Hidx Hlen. unfold pd.setitem.
  assert (pd.ensure_valid_index df val = df) as ->.
  { unfold pd.ensure_valid_index. by destruct (pd.index df). }
  apply Nat.eqb_neq in Hlen. by rewrite Hlen.
Qed.

Lemma setitem_empty_frame (df : pd.frame) (key : string) (val : list value) :
  pd.index df = [] -> val <> [] ->
  pd.setitem df key val
  = inr {| pd.index := seq 0 (length val);
           pd.columns :=
             pd.set_column key val
               ((fun kc => (kc.1, replicate (length val) NaN))
                  <$> pd.columns df) |}.
Proof.
  intros Hidx Hval. unfold pd.setitem, pd.ensure_valid_index. rewrite Hidx.
  destruct val as [|x val]; [done|]. cbn [pd.index pd.columns].
  by rewrite length_seq, Nat.eqb_refl.
Qed.

Lemma lookup_set_column (key k : string) (val : list value)
    (cols : list (string * list value)) :
  pd.lookup_column k (pd.set_column key val cols)
  = if String.eqb key k then Some val else pd.lookup_column k cols.
Proof.
  induction cols as [|[k' c] cols IH]; cbn [pd.set_column pd.lookup_column].
  - done.
  - destruct (String.eqb_spec k' key) as [->|Hne]; cbn [pd.lookup_column].
    + by destruct (String.eqb key k).
    + destruct (String.eqb_spec k' k) as [->|Hne'].
      * by rewrite (proj2 (String.eqb_neq _ _)) by done.
      * done.
Qed.

(* ================================================================= *)
(** ** Facts about the configuration check *)

Lemma check_configuration_unloaded (environ : gmap string string) :
  check_configuration ∅ environ = inl (Exception "Couldn't load .env file").
Proof. done. Qed.

Lemma lookup_loaded (dotenv_values : gmap string (option string))
    (environ : gmap string string) (var : string) :
  (omap id dotenv_values ∪ environ) !! var = None
  <-> environ !! var = None
      /\ (dotenv_values !! var = None \/ dotenv_values !! var = Some None).
Proof.
  rewrite lookup_union_None, lookup_omap.
  destruct (dotenv_values !! var) as [[v|]|]; cbn.
  - split; [by intros [? _]|]. by intros [_ [?|?]].
  - split; [intros [_ ?]; auto|]. by intros [? _].
  - split; [intros [_ ?]; auto|]. by intros [? _].
Qed.

Lemma check_configuration_loaded (dotenv_values : gmap string (option string))
    (environ : gmap string string) :
  dotenv_values <> ∅ ->
  check_configuration dotenv_values environ
  = match (omap id dotenv_values ∪ environ) !! "OPENAI_API_KEY" with
    | Some _ => inr (omap id dotenv_values ∪ environ)
    | None =>
        inl (EnvironmentError
               "These environment variables are missing: ['OPENAI_API_KEY']")
    end.
Proof.
  intros Hne. unfold check_configuration, dotenv.load_dotenv.
  rewrite bool_decide_eq_false_2 by done. cbn [negb].
  unfold envVars. rewrite filter_cons, filter_nil.
  destruct ((omap id dotenv_values ∪ environ) !! "OPENAI_API_KEY") eqn:Hk.
  - by rewrite decide_False.
  - by rewrite decide_True.
Qed.

(* ================================================================= *)
(** ** Facts about traces *)

Lemma successes_app (tr1 tr2 : list event) :
  successes (tr1 ++ tr2) = successes tr1 ++ successes tr2.
Proof. apply omap_app. Qed.

Lemma service_calls_app (tr1 tr2 : list event) :
  service_calls (tr1 ++ tr2) = service_calls tr1 + service_calls tr2.
Proof. unfold service_calls. by rewrite filter_app, length_app. Qed.

(** What the client reads from an answer, against the shape of the
    answer: it raises exactly on the failures, with their exception, and
    otherwise reads the vector of the first entry. *)
Lemma response_embedding_shape (r : exn + response) :
  match let! response := r in response_embedding response with
  | inl e => failure r = Some e
  | inr v =>
      failure r = None
      /\ exists ds, r = inr {| data := Some ({| embedding := Some v |} :: ds) |}
  end.
Proof.
  destruct r as [e|[[[|[[v|]] ds]|]]]; cbn; try done. split; [done|by exists ds].
Qed.

Lemma success_failure (input : list value) (engine : string)
    (r : exn + response) (e : exn) :
  failure r = Some e -> success (EvCreate input engine r) = None.
Proof. by destruct r as [e'|[[[|[[v|]] ds]|]]]. Qed.

Lemma successes_failed_attempt (text : value) (r : exn + response) (e : exn) :
  failure r = Some e -> successes (failed_attempt text r e) = [].
Proof.
  intros Hf. unfold successes, failed_attempt. cbn [omap list_omap].
  by rewrite (success_failure _ _ _ _ Hf).
Qed.

Lemma successes_failed_attempts (text : value)
    (fails : list ((exn + response) * exn)) :
  Forall (fun re => failure re.1 = Some re.2) fails ->
  successes (concat ((fun re => failed_attempt text re.1 re.2) <$> fails)) = [].
Proof.
  induction 1 as [|[r e] fails Hf _ IH]; [done|].
  rewrite fmap_cons, concat_cons, successes_app, IH.
  by rewrite successes_failed_attempt.
Qed.

(** The trace of a record holds one success: its last call. *)
Lemma successes_record_trace (text : value) (o : outcome) (v : EmbeddingVector) :
  outcome_ok o v -> successes (record_trace text o) = [([text], v)].
Proof.
  intros [Hf [ds Hv]]. unfold record_trace.
  rewrite successes_app, (successes_failed_attempts text o.1 Hf).
  by rewrite Hv.
Qed.

Lemma successes_record_traces (text_list : list value) (os : list outcome)
    (vs : list EmbeddingVector) :
  Forall2 outcome_ok os vs -> length os = length text_list ->
  successes (concat (zip_with record_trace text_list os))
  = zip ((fun text => [text]) <$> text_list) vs.
Proof.
  intros Hos. revert text_list.
  induction Hos as [|o v os vs Ho _ IH]; intros [|text text_list] Hlen; try done.
  rewrite fmap_cons. cbn [zip_with zip]. rewrite concat_cons.
  rewrite successes_app, (successes_record_trace _ _ _ Ho).
  cbn [app]. f_equal. apply IH. by injection Hlen.
Qed.

Lemma service_calls_failed_attempts (text : value)
    (fails : list ((exn + response) * exn)) :
  service_calls (concat ((fun re => failed_attempt text re.1 re.2) <$> fails))
  = length fails.
Proof.
  induction fails as [|[r e] fails IH]; [done|].
  rewrite fmap_cons, concat_cons, service_calls_app, IH. done.
Qed.

(** A record costs one call per failure and one more. *)
Lemma service_calls_record_trace (text : value) (o : outcome) :
  service_calls (record_trace text o) = Datatypes.S (length o.1).
Proof.
  unfold record_trace. rewrite service_calls_app, service_calls_failed_attempts.
  change (service_calls [EvCreate [text] openai_embed_model (inr o.2)]) with 1.
  lia.
Qed.

(** The call that was accepted for the text at a position is in the trace,
    with the response that holds the vector at that position. *)
Lemma accepted_call_in_traces (text_list : list value) (os : list outcome)
    (vs : list EmbeddingVector) (i : nat) (text : value)
    (v : EmbeddingVector) :
  Forall2 outcome_ok os vs -> length os = length text_list ->
  text_list !! i = Some text -> vs !! i = Some v ->
  exists ds,
    EvCreate [text] openai_embed_model
      (inr {| data := Some ({| embedding := Some v |} :: ds) |})
    ∈ concat (zip_with record_trace text_list os).
Proof.
  intros Hos. revert text_list i.
  induction Hos as [|o v' os vs Ho _ IH]; intros [|t text_list] i Hlen Ht Hv;
    try done.
  cbn [zip_with]. rewrite concat_cons. destruct i as [|i].
  - injection Ht as ->. injection Hv as ->. destruct Ho as [_ [ds Hds]].
    exists ds. apply elem_of_app. left. unfold record_trace.
    apply elem_of_app. right. rewrite Hds. apply list_elem_of_singleton. done.
  - destruct (IH text_list i) as [ds Hds]; [by injection Hlen|done|done|].
    exists ds. apply elem_of_app. by right.
Qed.

(* ================================================================= *)
(** ** Facts about [run] *)

(** What can be seen at the root of a bind. *)
Lemma observe_bind {E : Type -> Type} {R T : Type}
    (t : itree E T) (k : T -> itree E R) :
  observe (ITree.bind t k)
  = match observe t with
    | RetF r => observe (k r)
    | TauF t' => TauF (ITree.bind t' k)
    | VisF e h => VisF e (fun x => ITree.bind (h x) k)
    end.
Proof.
  unfold ITree.bind, ITree.subst, observe. cbn.
  destruct (_observe t); reflexivity.
Qed.

Section RunFacts.
Context {S : Type}.
Context (service : S -> list value -> string -> (exn + response) * S).

(** *** The equations of [run] *)

Lemma run_unfold {R : Type} (n : nat) (t : itree notebookE R) w :
  run service (Datatypes.S n) t w
  = match observe t with
    | RetF r => Some (r, w)
    | TauF t' => run service n t' w
    | VisF e k =>
        let (x, w') := handle service e w in run service n (k x) w'
    end.
Proof. done. Qed.

Lemma run_Ret {R : Type} (n : nat) (r : R) w :
  run service (Datatypes.S n) (Ret r) w = Some (r, w).
Proof. done. Qed.

Lemma run_Tau {R : Type} (n : nat) (t : itree notebookE R) w :
  run service (Datatypes.S n) (Tau t) w = run service n t w.
Proof. done. Qed.

Lemma run_bind_eq {T R : Type} (n : nat) (t : itree notebookE T)
    (k : T -> itree notebookE R) w :
  run service n (ITree.bind t k) w
  = match n with
    | 0 => None
    | Datatypes.S n' =>
        match observe t with
        | RetF r => run service n (k r) w
        | TauF t' => run service n' (ITree.bind t' k) w
        | VisF e h =>
            let (x, w') := handle service e w in
            run service n' (ITree.bind (h x) k) w'
        end
    end.
Proof.
  destruct n; [done|]. rewrite !run_unfold, observe_bind.
  by destruct (observe t).
Qed.

Lemma run_bind_Ret {T R : Type} (n : nat) (r : T)
    (k : T -> itree notebookE R) w :
  run service n (ITree.bind (Ret r) k) w = run service n (k r) w.
Proof. rewrite run_bind_eq. by destruct n. Qed.

Lemma run_bind_trigger {T R : Type} (n : nat) (e : notebookE T)
    (k : T -> itree notebookE R) w :
  run service (Datatypes.S n) (ITree.bind (ITree.trigger e) k) w
  = run service n (k (handle service e w).1) (handle service e w).2.
Proof.
  rewrite run_bind_eq. cbn. destruct (handle service e w).
  by rewrite run_bind_Ret.
Qed.

Lemma run_iter {R I : Type} (n : nat)
    (body : I -> itree notebookE (I + R)) (i : I) w :
  run service n (ITree.iter body i) w
  = run service n (ITree.bind (body i) (next_turn body)) w.
Proof. by destruct n. Qed.

(** *** Fuel *)

Lemma run_mono {R : Type} (n m : nat) (t : itree notebookE R) w x :
  run service n t w = Some x -> n <= m -> run service m t w = Some x.
Proof.
  revert m t w. induction n as [|n IH]; intros m t w; [done|].
  destruct m as [|m]; [lia|]. rewrite !run_unfold. intros H Hle.
  destruct (observe t); [done| |].
  - apply IH; [done|lia].
  - destruct (handle service e w). apply IH; [done|lia].
Qed.

(** *** Sequencing *)

Lemma run_bind_inv {T R : Type} (n : nat) (t : itree notebookE T)
    (k : T -> itree notebookE R) w x :
  run service n (ITree.bind t k) w = Some x ->
  exists r w1,
    run service n t w = Some (r, w1) /\ run service n (k r) w1 = Some x.
Proof.
  revert t w. induction n as [|n IH]; intros t w; [done|].
  rewrite run_bind_eq, (run_unfold n t).
  destruct (observe t) as [r|t'|X e h].
  - intros H. by exists r, w.
  - intros H. destruct (IH _ _ H) as (r & w1 & H1 & H2).
    exists r, w1. split; [done|]. eapply run_mono; [done|lia].
  - destruct (handle service e w) as [y w']. intros H.
    destruct (IH _ _ H) as (r & w1 & H1 & H2).
    exists r, w1. split; [done|]. eapply run_mono; [done|lia].
Qed.

Lemma run_bind {T R : Type} (n1 n2 : nat) (t : itree notebookE T)
    (k : T -> itree notebookE R) w r w1 x :
  run service n1 t w = Some (r, w1) -> run service n2 (k r) w1 = Some x ->
  run service (n1 + n2) (ITree.bind t k) w = Some x.
Proof.
  revert t w. induction n1 as [|n1 IH]; intros t w; [done|].
  rewrite run_bind_eq, (run_unfold n1 t). cbn [Nat.add].
  destruct (observe t) as [r'|t'|X e h].
  - intros [= -> ->] H. eapply run_mono; [done|lia].
  - intros H1 H2. by apply IH.
  - destruct (handle service e w) as [y w']. intros H1 H2. by apply IH.
Qed.

(** *** Agreement with the interpretation of the library: a result of
    [run] is the result of [interp_state], up to silent steps. *)
Lemma run_sound {R : Type} (n : nat) (t : itree notebookE R) w r w' :
  run service n t w = Some (r, w') ->
  eutt eq (interp_state (handle_state service) t w) (Ret (w', r)).
Proof.
  revert t w. induction n as [|n IH]; intros t w; [done|].
  rewrite run_unfold.
  destruct (observe t) as [r0|t'|X e k] eqn:Ht; intros H;
    rewrite (itree_eta t), Ht.
  - injection H as -> ->. rewrite interp_state_ret. reflexivity.
  - rewrite interp_state_tau, tau_eutt. by apply IH.
  - rewrite interp_state_vis. unfold handle_state at 1. cbn.
    rewrite bind_ret_l. cbn. rewrite tau_eutt.
    destruct (handle service e w) as [x w1]. by apply IH.
Qed.

(** Every call in the trace of a run is an answer of the service. *)
Lemma run_answered {R : Type} (n : nat) (t : itree notebookE R) w x w' :
  run service n t w = Some (x, w') ->
  exists tr, trace w' = trace w ++ tr /\ answered service (svc w) tr (svc w').
Proof.
  revert t w. induction n as [|n IH]; intros t w; [done|].
  rewrite run_unfold. destruct (observe t) as [r|t'|X e k].
  - intros [= -> ->]. exists []. by rewrite app_nil_r.
  - apply IH.
  - destruct (handle service e w) as [y w1] eqn:Hh. intros H.
    apply IH in H as (tr & Htr & Hans).
    destruct e; cbn [handle] in Hh.
    + destruct (service (svc w) input engine) as [r s'] eqn:Hs.
      injection Hh as <- <-. cbn [trace svc] in *.
      exists (EvCreate input engine r :: tr).
      split; [by rewrite Htr, <- app_assoc|]. cbn [answered]. by rewrite Hs.
    + injection Hh as _ <-. cbn [trace svc] in *.
      exists (EvPrint out :: tr). split; [by rewrite Htr, <- app_assoc|done].
    + injection Hh as _ <-. cbn [trace svc] in *.
      exists (EvSleep secs :: tr). split; [by rewrite Htr, <- app_assoc|done].
    + injection Hh as _ <-. cbn [trace svc] in *.
      exists (EvPickle df path :: tr). split; [by rewrite Htr, <- app_assoc|done].
Qed.

(** *** The loop body *)

Lemma run_attempt (n : nat) text el w :
  run service (4 + n) (attempt text el) w
  = Some (attempt_step service text el w).
Proof.
  unfold attempt, attempt_step. cbn [Nat.add].
  rewrite run_bind_trigger. cbn [handle fst snd].
  destruct (service (svc w) [text] openai_embed_model) as [r s']. cbn [fst snd].
  destruct (let! response := r in response_embedding response) as [e|v].
  - rewrite !run_bind_trigger. cbn [handle fst snd svc trace].
    rewrite run_Ret. unfold failed_attempt. by rewrite <- !app_assoc.
  - by rewrite run_Ret.
Qed.

Lemma run_attempt_inv (n : nat) text el w x :
  run service n (attempt text el) w = Some x ->
  x = attempt_step service text el w.
Proof.
  intros H. apply (run_mono n (4 + n)) in H; [|lia].
  rewrite run_attempt in H. congruence.
Qed.

(** *** The loop [while not done] *)

Lemma run_while_done (n : nat) text el w :
  run service (Datatypes.S n) (ITree.iter (while_not_done text) (el, true)) w
  = Some (el, w).
Proof. rewrite run_iter. cbn [while_not_done]. by rewrite run_bind_Ret. Qed.

Lemma run_while_done_inv (n : nat) text el w x :
  run service n (ITree.iter (while_not_done text) (el, true)) w = Some x ->
  x = (el, w).
Proof.
  destruct n; [done|]. rewrite run_while_done. congruence.
Qed.

(** A turn of the loop costs fuel: what is left runs the loop from the
    state and the world that [attempt_step] gives. *)
Lemma run_while_turn_inv (n : nat) text el w x :
  run service n (ITree.iter (while_not_done text) (el, false)) w = Some x ->
  exists m, m < n /\
    run service m
      (ITree.iter (while_not_done text) (attempt_step service text el w).1)
      (attempt_step service text el w).2 = Some x.
Proof.
  rewrite run_iter. cbn [while_not_done]. intros H.
  apply run_bind_inv in H as (lr & w1 & H1 & H2).
  apply run_bind_inv in H1 as (st' & w2 & Ha & Hr).
  apply run_attempt_inv in Ha. destruct n as [|n]; [done|].
  rewrite run_Ret in Hr. injection Hr as <- <-.
  cbn [next_turn] in H2. rewrite run_Tau in H2. exists n. split; [lia|]. by rewrite <- Ha.
Qed.

Lemma run_while_turn (n : nat) text el w x :
  run service n
    (ITree.iter (while_not_done text) (attempt_step service text el w).1)
    (attempt_step service text el w).2 = Some x ->
  run service (6 + n) (ITree.iter (while_not_done text) (el, false)) w
  = Some x.
Proof.
  intros H. rewrite run_iter. cbn [while_not_done].
  apply (run_bind 5 (Datatypes.S n)) with
    (r := inl (attempt_step service text el w).1)
    (w1 := (attempt_step service text el w).2).
  - apply (run_bind 4 1) with (r := (attempt_step service text el w).1)
                              (w1 := (attempt_step service text el w).2).
    + rewrite (run_attempt 0). by destruct (attempt_step service text el w).
    + done.
  - cbn [next_turn]. by rewrite run_Tau.
Qed.

(** The two ways a pass through the body can go. *)
Lemma attempt_step_cases text el w :
  let r := (service (svc w) [text] openai_embed_model).1 in
  let s' := (service (svc w) [text] openai_embed_model).2 in
  (exists e, failure r = Some e /\
     attempt_step service text el w
     = ((el, false),
        {| svc := s'; trace := trace w ++ failed_attempt text r e |}))
  \/ (exists ds v,
        r = inr {| data := Some ({| embedding := Some v |} :: ds) |} /\
        attempt_step service text el w
        = ((el ++ [v], true),
           {| svc := s';
              trace := trace w ++ [EvCreate [text] openai_embed_model r] |})).
Proof.
  unfold attempt_step.
  destruct (service (svc w) [text] openai_embed_model) as [r s']. cbn [fst snd].
  pose proof (response_embedding_shape r) as Hr.
  destruct (let! response := r in response_embedding response) as [e|v].
  - left. by exists e.
  - right. destruct Hr as [_ [ds Hr]]. by exists ds, v.
Qed.

(** *** One record: whenever the loop ends, it has appended exactly one
    vector, the one read from the last response, after any number of
    failed attempts on the same text. *)
Lemma run_embed_text_inv (n : nat) text el w el' w' :
  run service n (embed_text text el) w = Some (el', w') ->
  exists (o : outcome) (v : EmbeddingVector),
    outcome_ok o v /\ el' = el ++ [v]
    /\ trace w' = trace w ++ record_trace text o.
Proof.
  unfold embed_text. revert w.
  induction (lt_wf n) as [n _ IH]. intros w H.
  apply run_while_turn_inv in H as (m & Hm & H).
  destruct (attempt_step_cases text el w) as [(e & He & Hs)|(ds & v & Hr & Hs)];
    rewrite Hs in H; cbn [fst snd] in H.
  - destruct (IH m Hm _ H) as ([fails resp] & v & [Hf Hv] & Hel & Htr).
    exists ((((service (svc w) [text] openai_embed_model).1, e) :: fails), resp), v.
    split; [|split]; [|done|].
    + split; [|done]. by constructor.
    + rewrite Htr. cbn [trace]. unfold record_trace. cbn [fst snd].
      rewrite fmap_cons, concat_cons. cbn [fst snd]. by rewrite <- !app_assoc.
  - apply run_while_done_inv in H. injection H as -> ->.
    exists ([], {| data := Some ({| embedding := Some v |} :: ds) |}), v.
    split; [|split]; [|done|].
    + split; [constructor|by exists ds].
    + cbn [trace]. unfold record_trace. cbn [fst snd fmap list_fmap concat app].
      by rewrite Hr.
Qed.

(** *** The [for] loop: one outcome per text, in order. *)
Lemma run_for_text_inv (n : nat) text_list el w el' w' :
  run service n (for_text text_list el) w = Some (el', w') ->
  exists (os : list outcome) (vs : list EmbeddingVector),
    Forall2 outcome_ok os vs /\ length os = length text_list
    /\ el' = el ++ vs
    /\ trace w' = trace w ++ concat (zip_with record_trace text_list os).
Proof.
  revert el w. induction text_list as [|text text_list IH]; intros el w H.
  - destruct n as [|n]; [done|]. cbn [for_text] in H. rewrite run_Ret in H.
    injection H as <- <-. exists [], []. rewrite !app_nil_r. by repeat split.
  - cbn [for_text] in H. apply run_bind_inv in H as (el1 & w1 & H1 & H2).
    apply run_embed_text_inv in H1 as (o & v & Ho & -> & Htr1).
    apply IH in H2 as (os & vs & Hos & Hlen & -> & Htr).
    exists (o :: os), (v :: vs). split; [by constructor|].
    split; [cbn; by rewrite Hlen|]. split; [by rewrite <- app_assoc|].
    rewrite Htr, Htr1. cbn [zip_with]. rewrite concat_cons. by rewrite <- !app_assoc.
Qed.

Lemma run_for_text_app_inv (n : nat) l1 l2 el w x :
  run service n (for_text (l1 ++ l2) el) w = Some x ->
  exists m el1 w1,
    run service m (for_text l1 el) w = Some (el1, w1)
    /\ run service n (for_text l2 el1) w1 = Some x.
Proof.
  revert el w. induction l1 as [|text l1 IH]; intros el w H.
  - by exists 1, el, w.
  - cbn [app for_text] in H. apply run_bind_inv in H as (el1 & w1 & H1 & H2).
    apply IH in H2 as (m & el2 & w2 & H2 & H3).
    exists (n + m), el2, w2. split; [|done].
    cbn [for_text]. by apply run_bind with (r := el1) (w1 := w1).
Qed.

End RunFacts.

(** *** The stub: [k] failures, then the answer *)

Lemma run_embed_text_stub_0 (bad : exn + response)
    (embed : list value -> EmbeddingVector) (text : value)
    (el : list EmbeddingVector) (tr : list event) :
  run (fails_then_succeeds bad embed) 7 (embed_text text el)
      {| svc := 0; trace := tr |}
  = Some (el ++ [embed [text]],
          {| svc := 0;
             trace := tr ++ [EvCreate [text] openai_embed_model
                               (inr (well_formed (embed [text])))] |}).
Proof.
  unfold embed_text. apply (run_while_turn _ 1). unfold attempt_step.
  cbn [svc fails_then_succeeds try well_formed response_embedding data
       embedding fst snd trace].
  by rewrite run_while_done.
Qed.

Lemma run_embed_text_stub (bad : exn + response) (e : exn)
    (embed : list value -> EmbeddingVector) (text : value)
    (el : list EmbeddingVector) (k : nat) (tr : list event) :
  failure bad = Some e ->
  run (fails_then_succeeds bad embed) (6 * k + 7) (embed_text text el)
      {| svc := k; trace := tr |}
  = Some (el ++ [embed [text]],
          {| svc := 0;
             trace := tr ++ concat (replicate k (failed_attempt text bad e))
                      ++ [EvCreate [text] openai_embed_model
                            (inr (well_formed (embed [text])))] |}).
Proof.
  intros Hbad. revert tr. induction k as [|k IH]; intros tr.
  - apply run_embed_text_stub_0.
  - replace (6 * Datatypes.S k + 7) with (6 + (6 * k + 7)) by lia.
    unfold embed_text in *.
    apply (run_while_turn _ (6 * k + 7)). unfold attempt_step.
    cbn [svc fails_then_succeeds].
    pose proof (response_embedding_shape bad) as Hshape.
    destruct (let! response := bad in response_embedding response) as [e'|v];
      [|destruct Hshape; congruence].
    assert (e' = e) as -> by congruence. cbn [fst snd trace]. rewrite IH.
    cbn [replicate]. rewrite concat_cons. by rewrite <- !app_assoc.
Qed.

(** Once the stub has no failure left, every text takes one call. *)
Lemma run_for_text_stub (bad : exn + response)
    (embed : list value -> EmbeddingVector) (text_list : list value)
    (el : list EmbeddingVector) (tr : list event) :
  run (fails_then_succeeds bad embed) (7 * length text_list + 1)
      (for_text text_list el) {| svc := 0; trace := tr |}
  = Some (el ++ ((fun text => embed [text]) <$> text_list),
          {| svc := 0;
             trace := tr ++ ((fun text =>
                                EvCreate [text] openai_embed_model
                                  (inr (well_formed (embed [text]))))
                             <$> text_list) |}).
Proof.
  revert el tr. induction text_list as [|text text_list IH]; intros el tr.
  - cbn [for_text length fmap list_fmap]. by rewrite !app_nil_r.
  - cbn [for_text length].
    replace (7 * Datatypes.S (length text_list) + 1)
      with (7 + (7 * length text_list + 1)) by lia.
    eapply run_bind; [apply run_embed_text_stub_0|].
    rewrite IH, fmap_cons. by rewrite <- !app_assoc.
Qed.

(** A run has one result, whatever fuel reaches it. *)
Lemma run_det {S R : Type}
    (service : S -> list value -> string -> (exn + response) * S)
    (n m : nat) (t : itree notebookE R) (w : World S) x y :
  run service n t w = Some x -> run service m t w = Some y -> x = y.
Proof.
  intros Hx Hy.
  apply (run_mono service n (n + m)) in Hx; [|lia].
  apply (run_mono service m (n + m)) in Hy; [|lia]. congruence.
Qed.

(* ================================================================= *)
(** ** Facts about the run of the notebook *)

Section NotebookFacts.
Context {S : Type} (service : S -> list value -> string -> (exn + response) * S).

Lemma run_bind_trigger_inv {T R : Type} (n : nat) (e : notebookE T)
    (k : T -> itree notebookE R) w x :
  run service n (ITree.bind (ITree.trigger e) k) w = Some x ->
  exists m, n = Datatypes.S m
    /\ run service m (k (handle service e w).1) (handle service e w).2 = Some x.
Proof.
  destruct n as [|m]; [done|]. rewrite run_bind_trigger. intros H. by exists m.
Qed.

Lemma run_Ret_inv {R : Type} (n : nat) (r : R) w x :
  run service n (Ret r) w = Some x -> x = (r, w).
Proof. destruct n; [done|]. rewrite run_Ret. congruence. Qed.

(** The builder and the writer on as many embeddings as records. *)
Lemma run_build_and_save (n : nat) (l : list (value * value))
    (vs : list EmbeddingVector) w :
  length vs = length l ->
  let df := frame_with_embeddings l vs in
  run service (4 + n) (build_and_save (frame_of_records l) vs) w
  = Some (inr df,
          {| svc := svc w;
             trace := trace w ++ [EvPrint (OutFrame df);
                                  EvPrint (OutGroupCount df "type");
                                  EvPickle df "data/text.pkl"] |}).
Proof.
  intros Hlen df. unfold build_and_save.
  rewrite (setitem_frame_of_records l vs Hlen). cbn [Nat.add].
  rewrite !run_bind_trigger. cbn [handle fst snd svc trace].
  rewrite run_Ret. by rewrite <- !app_assoc.
Qed.

(** A run of the notebook that ends with a frame: the four files were
    read, the configuration check passed, every text got its outcome, and
    the frame with the embeddings was displayed and pickled. *)
Lemma run_notebook_inv (n : nat) fs dotenv_values environ w df w' :
  run service n (notebook fs dotenv_values environ) w = Some (inr df, w') ->
  exists goats_lines gravity_lines blackholes_lines invasivegoats_lines
         (os : list outcome) (vs : list EmbeddingVector),
    let l := flat_records (documents goats_lines gravity_lines
                             blackholes_lines invasivegoats_lines) in
    read_file fs "docs/goats.txt" = inr goats_lines
    /\ read_file fs "docs/gravity.txt" = inr gravity_lines
    /\ read_file fs "docs/blackholes.txt" = inr blackholes_lines
    /\ read_file fs "docs/invasivegoats.txt" = inr invasivegoats_lines
    /\ df_combined fs = inr (frame_of_records l)
    /\ (exists environ', check_configuration dotenv_values environ = inr environ')
    /\ (exists w1,
          run service n (get_embeddings (l.*2))
            {| svc := svc w;
               trace := trace w ++ [EvPrint (OutFrame (frame_of_records l))] |}
          = Some (vs, w1)
          /\ w' = {| svc := svc w1;
                     trace := trace w1
                              ++ [EvPrint (OutFrame (frame_with_embeddings l vs));
                                  EvPrint (OutGroupCount
                                             (frame_with_embeddings l vs) "type");
                                  EvPickle (frame_with_embeddings l vs)
                                    "data/text.pkl"] |})
    /\ Forall2 outcome_ok os vs /\ length os = length l
    /\ df = frame_with_embeddings l vs
    /\ trace w'
       = trace w ++ [EvPrint (OutFrame (frame_of_records l))]
         ++ concat (zip_with record_trace (l.*2) os)
         ++ [EvPrint (OutFrame df); EvPrint (OutGroupCount df "type");
             EvPickle df "data/text.pkl"].
Proof.
  unfold notebook. destruct (df_combined fs) as [e|df0] eqn:Hdf.
  { intros H%run_Ret_inv. done. }
  destruct (df_combined_inv _ _ Hdf) as (g & gr & b & i & Hg & Hgr & Hb & Hi & ->).
  set (l := flat_records (documents g gr b i)) in *.
  intros (m & -> & H)%run_bind_trigger_inv. cbn [handle fst snd] in H.
  unfold cell_2 in H.
  destruct (check_configuration dotenv_values environ) as [e|environ'] eqn:Hc.
  { apply run_Ret_inv in H. done. }
  change (pd.getitem (frame_of_records l) "text") with (@inr exn _ (l.*2)) in H.
  cbv iota in H.
  apply run_bind_inv in H as (vs & w1 & Hemb & Hsave).
  pose proof (run_mono service _ (Datatypes.S m) _ _ _ Hemb ltac:(lia)) as Hemb'.
  apply run_for_text_inv in Hemb as (os & vs' & Hos & Hlen & -> & Htr).
  rewrite app_nil_l in *. rewrite length_fmap in Hlen.
  pose proof (Forall2_length _ _ _ Hos) as Hlen'.
  pose proof (run_build_and_save m l vs' w1 ltac:(lia)) as Hsave'.
  pose proof (run_det service _ _ _ _ _ _ Hsave Hsave') as [= -> ->].
  exists g, gr, b, i, os, vs'. cbn zeta. fold l.
  repeat (split; [done|]). split; [by eexists|].
  split; [eexists; split; [exact Hemb'|done]|].
  repeat (split; [done|]).
  cbn [trace]. rewrite Htr. cbn [trace]. by rewrite <- !app_assoc.
Qed.

(** A run of the notebook that ends with an exception ends in cell 1 or in
    the configuration check: the client raises nothing, and the builder
    gets as many embeddings as there are rows. *)
Lemma run_notebook_error (n : nat) fs dotenv_values environ w e w' :
  run service n (notebook fs dotenv_values environ) w = Some (inl e, w') ->
  df_combined fs = inl e \/ check_configuration dotenv_values environ = inl e.
Proof.
  unfold notebook. destruct (df_combined fs) as [e0|df0] eqn:Hdf.
  { intros [= -> _]%run_Ret_inv. by left. }
  destruct (df_combined_inv _ _ Hdf) as (g & gr & b & i & _ & _ & _ & _ & ->).
  set (l := flat_records (documents g gr b i)) in *.
  intros (m & -> & H)%run_bind_trigger_inv. cbn [handle fst snd] in H.
  unfold cell_2 in H.
  destruct (check_configuration dotenv_values environ) as [e1|environ'] eqn:Hc.
  { apply run_Ret_inv in H as [= -> _]. by right. }
  change (pd.getitem (frame_of_records l) "text") with (@inr exn _ (l.*2)) in H.
  cbv iota in H.
  apply run_bind_inv in H as (vs & w1 & Hemb & Hsave).
  apply run_for_text_inv in Hemb as (os & vs' & Hos & Hlen & -> & Htr).
  rewrite app_nil_l in *. rewrite length_fmap in Hlen.
  pose proof (Forall2_length _ _ _ Hos) as Hlen'.
  pose proof (run_build_and_save m l vs' w1 ltac:(lia)) as Hsave'.
  by pose proof (run_det service _ _ _ _ _ _ Hsave Hsave').
Qed.

End NotebookFacts.

(* ================================================================= *)
(** ** The model on small inputs *)

Example readlines_two_lines :
  readlines ("Goats" +:+ nl +:+ "Grazing" +:+ nl)
  = ["Goats" +:+ nl; "Grazing" +:+ nl].
Proof. reflexivity. Qed.

Example readlines_last_line_open :
  readlines ("Goats" +:+ nl +:+ "Grazing") = ["Goats" +:+ nl; "Grazing"].
Proof. reflexivity. Qed.

Example readlines_blank_line :
  readlines ("Goats" +:+ nl +:+ nl +:+ "Grazing" +:+ nl)
  = ["Goats" +:+ nl; nl; "Grazing" +:+ nl].
Proof. reflexivity. Qed.

Example readlines_empty : readlines "" = [].
Proof. reflexivity. Qed.

Example universal_newlines_mixed :
  universal_newlines ("a" +:+ crnl +:+ "b" +:+ cr +:+ "c" +:+ nl +:+ cr +:+ crnl)
  = "a" +:+ nl +:+ "b" +:+ nl +:+ "c" +:+ nl +:+ nl +:+ nl.
Proof. reflexivity. Qed.

Example df_combined_demo :
  df_combined demo_fs
  = inr {| pd.index := [0; 1; 2; 3; 4; 5];
           pd.columns :=
             [("type", [Str "goats"; Str "goats"; Str "gravity";
                        Str "blackholes"; Str "invasivegoats";
                        Str "invasivegoats"]);
              ("text", [Str ("Goats" +:+ nl); Str ("Grazing" +:+ nl);
                        Str ("LIGO" +:+ nl); Str ("Black holes" +:+ nl);
                        Str ("Islands" +:+ nl); Str "Seabirds"])] |}.
Proof. vm_compute. reflexivity. Qed.

Example df_combined_missing_file :
  df_combined (delete "docs/gravity.txt" demo_fs)
  = inl (FileNotFoundError "docs/gravity.txt").
Proof. vm_compute. reflexivity. Qed.

(** The scenario of the notebook's output: four files of 32 lines give 128
    records, 32 for each label. *)
Lemma four_times_32 (goats_lines gravity_lines blackholes_lines
    invasivegoats_lines : list string) :
  length goats_lines = 32 -> length gravity_lines = 32 ->
  length blackholes_lines = 32 -> length invasivegoats_lines = 32 ->
  let l := flat_records (documents goats_lines gravity_lines blackholes_lines
                           invasivegoats_lines) in
  length l = 128
  /\ Forall (fun label => length (group label l) = 32)
            ["goats"; "gravity"; "blackholes"; "invasivegoats"].
Proof.
  intros Hg Hgr Hb Hi l. unfold l, flat_records, documents, labelled.
  cbn [fmap list_fmap concat fst snd]. rewrite app_nil_r. split.
  - rewrite !length_app, !length_fmap. lia.
  - assert (forall (a b : string) (lines : list string),
              length (group a ((fun x => (Str b, Str x)) <$> lines))
              = if decide (b = a) then length lines else 0) as Hcount.
    { intros a b lines. unfold group.
      induction lines as [|x lines IH]; [by destruct (decide _)|].
      rewrite fmap_cons, filter_cons. cbn [fst str_of].
      destruct (decide (b = a)) as [->|Hne].
      - rewrite decide_True by done. cbn. by rewrite IH.
      - rewrite decide_False by congruence. done. }
    unfold group in *. rewrite !Forall_cons, Forall_nil.
    repeat split; rewrite !filter_app, !length_app, !Hcount;
      repeat case_decide; simplify_eq; lia.
Qed.

Example client_demo :
  run demo_service 27 (get_embeddings demo_texts) (demo_world 2)
  = Some ([[0.5%float; (-0.25)%float]; [0.125%float; 0.75%float]],
          {| svc := 0;
             trace :=
               failed_attempt (Str ("Goats" +:+ nl))
                 (inl (APIError "Rate limit")) (APIError "Rate limit")
               ++ failed_attempt (Str ("Goats" +:+ nl))
                    (inl (APIError "Rate limit")) (APIError "Rate limit")
               ++ [EvCreate [Str ("Goats" +:+ nl)] openai_embed_model
                     (inr (well_formed [0.5%float; (-0.25)%float]));
                   EvCreate [Str ("LIGO" +:+ nl)] openai_embed_model
                     (inr (well_formed [0.125%float; 0.75%float]))] |}).
Proof. vm_compute. reflexivity. Qed.

(** A response without entries is a failure like any other: the
    [IndexError] is printed, and the text is submitted again. *)
Example client_malformed_response :
  (run (fails_then_succeeds (inr {| data := Some [] |}) demo_embed) 20
     (get_embeddings [Str "Goats"]) (demo_world 1))
  = Some ([[0.5%float; (-0.25)%float]],
          {| svc := 0;
             trace :=
               [EvCreate [Str "Goats"] openai_embed_model
                  (inr {| data := Some [] |});
                EvPrint (OutText "Exception occurred: list index out of range. Retrying in 5 seconds...");
                EvSleep 5;
                EvCreate [Str "Goats"] openai_embed_model
                  (inr (well_formed [0.5%float; (-0.25)%float]))] |}).
Proof. vm_compute. reflexivity. Qed.

(** With too little fuel there is no result yet. *)
Example client_out_of_fuel :
  run demo_service 10 (get_embeddings demo_texts) (demo_world 2) = None.
Proof. vm_compute. reflexivity. Qed.

Example check_configuration_from_dotenv :
  check_configuration demo_dotenv ∅ = inr {["OPENAI_API_KEY" := "sk-demo"]}.
Proof. vm_compute. reflexivity. Qed.

Example check_configuration_without_value :
  check_configuration {["OPENAI_API_KEY" := None]} ∅
  = inl (EnvironmentError
           "These environment variables are missing: ['OPENAI_API_KEY']").
Proof. vm_compute. reflexivity. Qed.

Example check_configuration_without_dotenv :
  check_configuration ∅ {["OPENAI_API_KEY" := "sk-demo"]}
  = inl (Exception "Couldn't load .env file").
Proof. vm_compute. reflexivity. Qed.

Example setitem_too_short :
  pd.setitem (frame_of_records [(Str "goats", Str "Goats");
                                (Str "goats", Str "Grazing")])
    "openaiEmbeddings" [Vec [0.5%float]]
  = inl (ValueError "Length of values (1) does not match length of index (2)").
Proof. vm_compute. reflexivity. Qed.

Example notebook_demo_dataset :
  dataset demo_frame
  = [(Str "goats", Str ("Goats" +:+ nl), Vec [0.5%float; (-0.25)%float]);
     (Str "goats", Str ("Grazing" +:+ nl), Vec [0.5%float; (-0.25)%float]);
     (Str "gravity", Str ("LIGO" +:+ nl), Vec [0.125%float; 0.75%float]);
     (Str "blackholes", Str ("Black holes" +:+ nl), Vec [0.125%float; 0.75%float]);
     (Str "invasivegoats", Str ("Islands" +:+ nl), Vec [0.125%float; 0.75%float]);
     (Str "invasivegoats", Str "Seabirds", Vec [0.125%float; 0.75%float])].
Proof. vm_compute. reflexivity. Qed.

(* ================================================================= *)
(** ** The embedding client *)

(** C3. Whenever [get_embeddings] returns, against any service, the list
    it returns is as long as the list of texts; the calls of its trace are
    answers of the service; the successful ones among them, told by the
    shape of the answer, are in order one per text; and the vector at
    position [i] is the one that the service answered for the text at
    position [i]: the trace holds the call on that text, alone in its
    input, whose answer is a response with that vector as the [embedding]
    of the first entry of its [data]. *)
Theorem get_embeddings_positional {S : Type}
    (service : S -> list value -> string -> (exn + response) * S)
    (fuel : nat) (text_list : list value) (w w' : World S)
    (embedding_list : list EmbeddingVector) :
  run service fuel (get_embeddings text_list) w = Some (embedding_list, w') ->
  length embedding_list = length text_list
  /\ exists tr,
       trace w' = trace w ++ tr
       /\ answered service (svc w) tr (svc w')
       /\ successes tr = zip ((fun text => [text]) <$> text_list) embedding_list
       /\ forall i text v,
            text_list !! i = Some text -> embedding_list !! i = Some v ->
            successes tr !! i = Some ([text], v)
            /\ exists ds,
                 EvCreate [text] openai_embed_model
                   (inr {| data := Some ({| embedding := Some v |} :: ds) |})
                 ∈ tr.
Proof.
  intros H. destruct (run_answered service _ _ _ _ _ H) as (tr & Htr' & Hans).
  apply run_for_text_inv in H as (os & vs & Hos & Hlen & -> & Htr).
  rewrite app_nil_l. pose proof (Forall2_length _ _ _ Hos) as Hlen'.
  rewrite Htr in Htr'. apply app_inv_head in Htr' as <-.
  split; [lia|]. eexists. split; [exact Htr|]. split; [exact Hans|].
  rewrite (successes_record_traces _ _ _ Hos Hlen). split; [done|].
  intros i text v Ht Hv. split.
  - apply lookup_zip_with_Some.
    exists [text], v. rewrite list_lookup_fmap, Ht. done.
  - by apply (accepted_call_in_traces text_list os vs i).
Qed.

Lemma get_embeddings_positional_witness :
  run demo_service 40 (get_embeddings demo_texts) (demo_world 2)
  = Some demo_client_run
  /\ length demo_client_run.1 = length demo_texts
  /\ exists tr,
       trace demo_client_run.2 = trace (demo_world 2) ++ tr
       /\ answered demo_service (svc (demo_world 2)) tr (svc demo_client_run.2)
       /\ successes tr
          = zip ((fun text => [text]) <$> demo_texts) demo_client_run.1
       /\ forall i text v,
            demo_texts !! i = Some text -> demo_client_run.1 !! i = Some v ->
            successes tr !! i = Some ([text], v)
            /\ exists ds,
                 EvCreate [text] openai_embed_model
                   (inr {| data := Some ({| embedding := Some v |} :: ds) |})
                 ∈ tr.
Proof.
  split; [vm_compute; reflexivity|].
  apply (get_embeddings_positional demo_service 40 demo_texts (demo_world 2)).
  vm_compute; reflexivity.
Defined.

(** C4. A stub fails [k] times and then succeeds; a failure is a call
    that raises, or a malformed response: one without [data], with an
    empty [data], or whose first entry has no [embedding]. Against it the
    client returns for the first text the vector of the stub after [k + 1]
    calls: the trace is [k] times the failed attempt on that same text
    (the call, the message with the exception, the sleep of 5 seconds),
    then the successful call, and the calls that follow are for the next
    texts, one each. The fuel in the statement suffices, no other fuel
    gives another result, and this is the result of the interpretation by
    [interp_state]. *)
Theorem retry_terminates_after_k_failures (bad : exn + response) (e : exn)
    (embed : list value -> EmbeddingVector) (text : value)
    (rest : list value) (k : nat) :
  (bad = inl e
   \/ (bad = inr {| data := None |} /\ e = KeyError "data")
   \/ (bad = inr {| data := Some [] |}
       /\ e = IndexError "list index out of range")
   \/ (exists ds, bad = inr {| data := Some ({| embedding := None |} :: ds) |}
                  /\ e = KeyError "embedding")) ->
  let stub := fails_then_succeeds bad embed in
  let w := {| svc := k; trace := [] |} in
  let retries :=
    concat (replicate k
      [EvCreate [text] openai_embed_model bad;
       EvPrint (OutText ("Exception occurred: " +:+ str_exn e
                         +:+ ". Retrying in 5 seconds..."));
       EvSleep 5]) in
  let accepted t :=
    EvCreate [t] openai_embed_model
      (inr {| data := Some [{| embedding := Some (embed [t]) |}] |}) in
  let w' := {| svc := 0;
               trace := retries ++ [accepted text] ++ (accepted <$> rest) |} in
  run stub (6 * k + 7 * length rest + 8) (get_embeddings (text :: rest)) w
  = Some (embed [text] :: ((fun t => embed [t]) <$> rest), w')
  /\ (forall fuel x,
        run stub fuel (get_embeddings (text :: rest)) w = Some x ->
        x = (embed [text] :: ((fun t => embed [t]) <$> rest), w'))
  /\ eutt eq
       (interp_state (handle_state stub) (get_embeddings (text :: rest)) w)
       (Ret (w', embed [text] :: ((fun t => embed [t]) <$> rest)))
  /\ service_calls (retries ++ [accepted text]) = k + 1
  /\ successes (retries ++ [accepted text]) = [([text], embed [text])]
  /\ service_calls (trace w') = k + 1 + length rest.
Proof.
  intros Hshape stub w retries accepted w'.
  assert (failure bad = Some e) as Hbad.
  { destruct Hshape as [->|[[-> ->]|[[-> ->]|(ds & -> & ->)]]]; done. }
  clear Hshape.
  assert (retries = concat (replicate k (failed_attempt text bad e)))
    as Hretries by reflexivity.
  clearbody retries. subst retries.
  assert (run stub (6 * k + 7 * length rest + 8)
            (get_embeddings (text :: rest)) w
          = Some (embed [text] :: ((fun t => embed [t]) <$> rest), w')) as Hrun.
  { unfold get_embeddings. cbn [for_text].
    replace (6 * k + 7 * length rest + 8)
      with ((6 * k + 7) + (7 * length rest + 1)) by lia.
    eapply run_bind; [by apply (run_embed_text_stub bad e)|].
    subst stub. rewrite run_for_text_stub. unfold w'.
    rewrite !app_nil_l. by rewrite <- !app_assoc. }
  assert (service_calls (concat (replicate k (failed_attempt text bad e))) = k
          /\ successes (concat (replicate k (failed_attempt text bad e))) = [])
    as [Hc Hs].
  { clear Hrun. induction k as [|k [IH1 IH2]]; [done|].
    cbn [replicate]. rewrite concat_cons, service_calls_app, successes_app.
    rewrite IH1, IH2, (successes_failed_attempt _ _ _ Hbad).
    change (service_calls (failed_attempt text bad e)) with 1. split; [lia|done]. }
  split; [done|].
  split; [intros fuel x Hx; exact (run_det stub _ _ _ _ _ _ Hx Hrun)|].
  split; [exact (run_sound stub _ _ _ _ _ Hrun)|].
  split; [rewrite service_calls_app, Hc;
          by change (service_calls [accepted text]) with 1|].
  split; [rewrite successes_app, Hs; done|].
  unfold w'. cbn [trace]. rewrite !service_calls_app, Hc.
  assert (service_calls (accepted <$> rest) = length rest) as ->;
    [|change (service_calls [accepted text]) with 1; lia].
  clear. induction rest as [|t rest IH]; [done|].
  rewrite fmap_cons. change (accepted t :: (accepted <$> rest))
    with ([accepted t] ++ (accepted <$> rest)).
  rewrite service_calls_app, IH. done.
Qed.

Lemma retry_terminates_after_k_failures_witness :
  (run demo_service 27 (get_embeddings demo_texts) (demo_world 2)
   = Some demo_client_run
   /\ service_calls (trace demo_client_run.2) = 2 + 1 + 1)
  /\ (run malformed_service 21 (get_embeddings demo_texts) (demo_world 1)
      = Some malformed_client_run
      /\ service_calls (trace malformed_client_run.2) = 1 + 1 + 1).
Proof.
  split.
  - pose proof (retry_terminates_after_k_failures
                  (inl (APIError "Rate limit")) (APIError "Rate limit")
                  demo_embed (Str ("Goats" +:+ nl)) [Str ("LIGO" +:+ nl)] 2
                  (or_introl eq_refl)) as (Hrun & _ & _ & _ & _ & Hcalls).
    split; [exact Hrun|exact Hcalls].
  - pose proof (retry_terminates_after_k_failures
                  (inr {| data := Some [] |})
                  (IndexError "list index out of range")
                  demo_embed (Str ("Goats" +:+ nl)) [Str ("LIGO" +:+ nl)] 1
                  (or_intror (or_intror (or_introl (conj eq_refl eq_refl)))))
      as (Hrun & _ & _ & _ & _ & Hcalls).
    split; [exact Hrun|exact Hcalls].
Defined.

(** C10. A pass through the loop body whose call fails, by raising or by
    a malformed response (no [data], an empty [data], a first entry
    without [embedding]), leaves [embedding_list] as it was and [done]
    false, after the message with the exception and the sleep; a pass
    whose call is answered by a response that holds a vector appends that
    vector and sets [done]. So the loop for one text appends exactly one
    vector, the one held by the first answer that is not a failure; and at
    the point where the first [i] texts have been processed,
    [embedding_list] is the list of the vectors of the successful calls
    made so far, in order, one per text, whatever the number of failures.
    Any run of [get_embeddings] passes through that point and goes on from
    it. *)
Theorem retry_atomicity {S : Type}
    (service : S -> list value -> string -> (exn + response) * S) :
  (forall fuel text embedding_list w st w',
     run service fuel (attempt text embedding_list) w = Some (st, w') ->
     let r := (service (svc w) [text] openai_embed_model).1 in
     let retried e :=
       st = (embedding_list, false)
       /\ trace w'
          = trace w
            ++ [EvCreate [text] openai_embed_model r;
                EvPrint (OutText ("Exception occurred: " +:+ str_exn e
                                  +:+ ". Retrying in 5 seconds..."));
                EvSleep 5] in
     match r with
     | inl e => retried e
     | inr {| data := None |} => retried (KeyError "data")
     | inr {| data := Some [] |} =>
         retried (IndexError "list index out of range")
     | inr {| data := Some ({| embedding := None |} :: _) |} =>
         retried (KeyError "embedding")
     | inr {| data := Some ({| embedding := Some v |} :: _) |} =>
         st = (embedding_list ++ [v], true)
         /\ trace w' = trace w ++ [EvCreate [text] openai_embed_model r]
     end)
  /\ (forall fuel text embedding_list w embedding_list' w',
        run service fuel (embed_text text embedding_list) w
        = Some (embedding_list', w') ->
        exists (fails : list ((exn + response) * exn)) (ds : list datum)
               (v : EmbeddingVector),
          let o := (fails, {| data := Some ({| embedding := Some v |} :: ds) |}) in
          Forall (fun re => failure re.1 = Some re.2) fails
          /\ embedding_list' = embedding_list ++ [v]
          /\ trace w' = trace w ++ record_trace text o
          /\ successes (record_trace text o) = [([text], v)]
          /\ service_calls (record_trace text o) = Datatypes.S (length fails))
  /\ (forall fuel text_list i w embedding_list w',
        run service fuel (for_text (take i text_list) []) w
        = Some (embedding_list, w') ->
        exists tr,
          trace w' = trace w ++ tr
          /\ embedding_list = (successes tr).*2
          /\ (successes tr).*1 = (fun text => [text]) <$> take i text_list
          /\ length embedding_list = i `min` length text_list
          /\ forall j text v,
               text_list !! j = Some text -> embedding_list !! j = Some v ->
               exists ds,
                 EvCreate [text] openai_embed_model
                   (inr {| data := Some ({| embedding := Some v |} :: ds) |})
                 ∈ tr)
  /\ (forall fuel text_list i w embedding_results w'',
        run service fuel (get_embeddings text_list) w
        = Some (embedding_results, w'') ->
        exists fuel' w',
          run service fuel' (for_text (take i text_list) []) w
          = Some (take i embedding_results, w')
          /\ run service fuel
               (for_text (drop i text_list) (take i embedding_results)) w'
             = Some (embedding_results, w'')).
Proof.
  split; [|split; [|split]].
  - intros fuel text el w st w' H r retried. apply run_attempt_inv in H.
    destruct (attempt_step_cases service text el w)
      as [(e & He & Hs)|(ds & v & Hr & Hs)]; fold r in He, Hs || fold r in Hr, Hs.
    + rewrite Hs in H. injection H as -> ->. cbn [trace].
      subst retried. unfold failed_attempt. cbv beta.
      destruct r as [e'|[[[|[[v|]] ds]|]]]; cbn in He; by simplify_eq.
    + rewrite Hs in H. injection H as -> ->. cbn [trace]. by rewrite Hr.
  - intros fuel text el w el' w' H.
    apply run_embed_text_inv in H as ([fails resp] & v & Ho & -> & Htr).
    pose proof Ho as [Hf [ds Hds]]. cbn [fst snd] in Hf, Hds. subst resp.
    exists fails, ds, v. cbn zeta.
    by rewrite (successes_record_trace _ _ _ Ho), service_calls_record_trace.
  - intros fuel text_list i w el w' H.
    apply run_for_text_inv in H as (os & vs & Hos & Hlen & -> & Htr).
    eexists. split; [done|].
    rewrite (successes_record_traces _ _ _ Hos Hlen).
    pose proof (Forall2_length _ _ _ Hos) as Hlen'.
    rewrite snd_zip, fst_zip, app_nil_l by (rewrite length_fmap; lia).
    split; [done|]. split; [done|].
    split; [rewrite <- Hlen', Hlen; apply length_take|].
    intros j text v Ht Hv.
    apply (accepted_call_in_traces (take i text_list) os vs j); [done..| |done].
    rewrite lookup_take_lt; [done|]. apply lookup_lt_Some in Hv.
    rewrite <- Hlen', Hlen, length_take in Hv. lia.
  - intros fuel text_list i w vs w'' H. unfold get_embeddings in H.
    rewrite <- (take_drop i text_list) in H.
    apply run_for_text_app_inv in H as (m & el1 & w1 & H1 & H2).
    pose proof H1 as H1'. pose proof H2 as H2'.
    apply run_for_text_inv in H1' as (os1 & vs1 & Hos1 & Hlen1 & -> & _).
    apply run_for_text_inv in H2' as (os2 & vs2 & Hos2 & Hlen2 & -> & _).
    rewrite app_nil_l in *.
    assert (take i (vs1 ++ vs2) = vs1) as ->.
    { apply Forall2_length in Hos1, Hos2.
      rewrite length_take in Hlen1. rewrite length_drop in Hlen2.
      destruct (decide (i <= length text_list)).
      - rewrite take_app_length'; [done|lia].
      - assert (vs2 = []) as -> by (apply nil_length_inv; lia).
        rewrite app_nil_r. apply take_ge. lia. }
    by exists m, w1.
Qed.

Lemma retry_atomicity_witness :
  run malformed_service 40 (for_text (take 1 demo_texts) []) (demo_world 1)
  = Some malformed_prefix_run
  /\ exists tr,
       trace malformed_prefix_run.2 = trace (demo_world 1) ++ tr
       /\ malformed_prefix_run.1 = (successes tr).*2
       /\ (successes tr).*1 = (fun text => [text]) <$> take 1 demo_texts
       /\ length malformed_prefix_run.1 = 1 `min` length demo_texts
       /\ forall j text v,
            demo_texts !! j = Some text ->
            malformed_prefix_run.1 !! j = Some v ->
            exists ds,
              EvCreate [text] openai_embed_model
                (inr {| data := Some ({| embedding := Some v |} :: ds) |})
              ∈ tr.
Proof.
  split; [vm_compute; reflexivity|].
  destruct (retry_atomicity malformed_service) as (_ & _ & Hprefix & _).
  apply (Hprefix 40 demo_texts 1 (demo_world 1)). vm_compute; reflexivity.
Defined.

(* ================================================================= *)
(** ** The assembler and the dataset *)

(** C7. For every list of labelled documents that holds at least one, the
    assembler builds the frame whose records are the lines of each
    document in turn, in the order the documents were given, each with the
    label of its document: nothing is moved, dropped or merged. Cell 1 is
    this assembler on the four documents it reads. In a run of the notebook
    that ends with a frame, the records of that frame, which is also the
    frame displayed and pickled, are the assembled ones: each keeps its
    label. *)
Theorem assembler_correct :
  (forall (d : string * list string) (docs : list (string * list string)),
     exists df,
       assemble (d :: docs) = inr df
       /\ records df = flat_records (d :: docs)
       /\ (records df).*1
          = concat ((fun d => replicate (length d.2) (Str d.1)) <$> (d :: docs))
       /\ (records df).*2 = Str <$> concat (snd <$> (d :: docs))
       /\ pd.index df = seq 0 (length (records df)))
  /\ (forall (fs : gmap string string) (df : pd.frame),
        df_combined fs = inr df ->
        exists goats_lines gravity_lines blackholes_lines invasivegoats_lines,
          read_file fs "docs/goats.txt" = inr goats_lines
          /\ read_file fs "docs/gravity.txt" = inr gravity_lines
          /\ read_file fs "docs/blackholes.txt" = inr blackholes_lines
          /\ read_file fs "docs/invasivegoats.txt" = inr invasivegoats_lines
          /\ assemble (documents goats_lines gravity_lines blackholes_lines
                         invasivegoats_lines) = inr df)
  /\ (forall (S : Type)
        (service : S -> list value -> string -> (exn + response) * S)
        fuel fs dotenv_values environ (w w' : World S) df,
        run service fuel (notebook fs dotenv_values environ) w
        = Some (inr df, w') ->
        exists df0,
          df_combined fs = inr df0
          /\ records df = records df0
          /\ (dataset df).*1 = records df0
          /\ exists tr,
               trace w' = trace w ++ tr
               /\ forall ev, ev ∈ tr ->
                    match ev with
                    | EvPrint (OutFrame df') | EvPrint (OutGroupCount df' _)
                    | EvPickle df' _ => records df' = records df0
                    | _ => True
                    end).
Proof.
  split; [|split].
  - intros d docs. eexists. split; [apply assemble_frame|].
    rewrite records_frame_of_records. split; [done|].
    split; [|split; [|done]].
    + unfold flat_records. generalize (d :: docs). clear.
      induction l as [|[label lines] l IH]; [done|].
      rewrite !fmap_cons, !concat_cons, fmap_app, IH. f_equal.
      unfold labelled. cbn [fst snd]. clear.
      induction lines as [|x lines IH]; [done|]. cbn. by rewrite <- IH.
    + unfold flat_records. generalize (d :: docs). clear.
      induction l as [|[label lines] l IH]; [done|].
      rewrite !fmap_cons, !concat_cons, !fmap_app, IH. f_equal.
      unfold labelled. cbn [fst snd]. clear.
      induction lines as [|x lines IH]; [done|]. cbn. by rewrite <- IH.
  - intros fs df (g & gr & b & i & Hg & Hgr & Hb & Hi & ->)%df_combined_inv.
    exists g, gr, b, i. repeat (split; [done|]). apply assemble_frame.
  - intros S service fuel fs dv environ w w' df H.
    apply run_notebook_inv in H
      as (g & gr & b & i & os & vs & _ & _ & _ & _ & Hdf & _ & _ & Hos & Hlen & -> & Htr).
    eexists. split; [exact Hdf|].
    rewrite records_frame_with_embeddings, records_frame_of_records.
    split; [done|]. split.
    { rewrite dataset_frame_with_embeddings. apply fst_zip.
      apply Forall2_length in Hos. rewrite length_fmap. lia. }
    eexists. split; [exact Htr|]. intros ev Hev.
    apply elem_of_app in Hev as [Hev|Hev].
    { apply list_elem_of_singleton in Hev as ->.
      by rewrite ?records_frame_of_records. }
    apply elem_of_app in Hev as [Hev|Hev].
    { clear -Hev. revert os Hev.
      generalize ((flat_records (documents g gr b i)).*2). intros texts.
      induction texts as [|t texts IH]; intros [|o os] Hev;
        try (by apply elem_of_nil in Hev).
      cbn [zip_with] in Hev. rewrite concat_cons in Hev.
      apply elem_of_app in Hev as [Hev|Hev]; [|by eapply IH].
      unfold record_trace in Hev. apply elem_of_app in Hev as [Hev|Hev].
      - clear -Hev. induction o.1 as [|re fails IH]; [by apply elem_of_nil in Hev|].
        rewrite fmap_cons, concat_cons in Hev.
        apply elem_of_app in Hev as [Hev|Hev]; [|by apply IH].
        unfold failed_attempt in Hev.
        repeat (apply elem_of_cons in Hev as [->|Hev]; [done|]).
        by apply elem_of_nil in Hev.
      - by apply list_elem_of_singleton in Hev as ->. }
    repeat (apply elem_of_cons in Hev as [->|Hev];
            [by rewrite ?records_frame_with_embeddings,
                        ?records_frame_of_records|]).
    by apply elem_of_nil in Hev.
Qed.

Lemma assembler_correct_witness :
  run demo_service 80 (notebook demo_fs demo_dotenv ∅) (demo_world 2)
  = Some (inr demo_frame, demo_notebook_run.2)
  /\ exists df0,
       df_combined demo_fs = inr df0
       /\ records demo_frame = records df0
       /\ (dataset demo_frame).*1 = records df0
       /\ exists tr,
            trace demo_notebook_run.2 = trace (demo_world 2) ++ tr
            /\ forall ev, ev ∈ tr ->
                 match ev with
                 | EvPrint (OutFrame df') | EvPrint (OutGroupCount df' _)
                 | EvPickle df' _ => records df' = records df0
                 | _ => True
                 end.
Proof.
  split; [vm_compute; reflexivity|].
  destruct assembler_correct as (_ & _ & Hrun).
  apply (Hrun nat demo_service 80 demo_fs demo_dotenv ∅ (demo_world 2)).
  vm_compute; reflexivity.
Defined.

(** C1. In every run of the notebook that ends with a frame, the entry at
    each position of the final dataset has the label and the text of the
    assembled record at that position, and the dataset has an entry for
    each record; the assembled records are the lines of [goats.txt], then
    those of [gravity.txt], [blackholes.txt] and [invasivegoats.txt], in
    the order of the lines of each file. *)
Theorem order_invariant {S : Type}
    (service : S -> list value -> string -> (exn + response) * S)
    (fuel : nat) (fs : gmap string string)
    (dotenv_values : gmap string (option string))
    (environ : gmap string string) (w w' : World S)
    (final_dataset : pd.frame) :
  run service fuel (notebook fs dotenv_values environ) w
  = Some (inr final_dataset, w') ->
  exists assembled goats_lines gravity_lines blackholes_lines
         invasivegoats_lines,
    df_combined fs = inr assembled
    /\ read_file fs "docs/goats.txt" = inr goats_lines
    /\ read_file fs "docs/gravity.txt" = inr gravity_lines
    /\ read_file fs "docs/blackholes.txt" = inr blackholes_lines
    /\ read_file fs "docs/invasivegoats.txt" = inr invasivegoats_lines
    /\ records assembled
       = ((fun l => (Str "goats", Str l)) <$> goats_lines)
         ++ ((fun l => (Str "gravity", Str l)) <$> gravity_lines)
         ++ ((fun l => (Str "blackholes", Str l)) <$> blackholes_lines)
         ++ ((fun l => (Str "invasivegoats", Str l)) <$> invasivegoats_lines)
    /\ length (dataset final_dataset) = length (records assembled)
    /\ (forall i source_label text embedding,
          dataset final_dataset !! i = Some (source_label, text, embedding) ->
          records assembled !! i = Some (source_label, text))
    /\ (forall i source_label text,
          records assembled !! i = Some (source_label, text) ->
          exists embedding,
            dataset final_dataset !! i = Some (source_label, text, embedding)).
Proof.
  intros H. apply run_notebook_inv in H
    as (g & gr & b & i & os & vs & Hg & Hgr & Hb & Hi & Hdf & _ & _ & Hos & Hlen & -> & _).
  exists (frame_of_records (flat_records (documents g gr b i))), g, gr, b, i.
  repeat (split; [done|]).
  rewrite records_frame_of_records, dataset_frame_with_embeddings.
  apply Forall2_length in Hos.
  split; [|split; [|split]].
  - unfold flat_records, documents, labelled.
    rewrite !fmap_cons, !concat_cons. cbn [fst snd fmap list_fmap concat].
    by rewrite app_nil_r.
  - rewrite length_zip_with, length_fmap. lia.
  - intros j ty tx em Hj.
    apply lookup_zip_with_Some in Hj as (r & em' & Heq & Hr & _).
    by simplify_eq.
  - intros j ty tx Hj.
    destruct (lookup_lt_is_Some_2 (Vec <$> vs) j) as [em Hem].
    { rewrite length_fmap, <- Hos, Hlen. by eapply lookup_lt_Some. }
    exists em. apply lookup_zip_with_Some. by exists (ty, tx), em.
Qed.

Lemma order_invariant_witness :
  run demo_service 80 (notebook demo_fs demo_dotenv ∅) (demo_world 2)
  = Some (inr demo_frame, demo_notebook_run.2)
  /\ exists assembled,
       df_combined demo_fs = inr assembled
       /\ length (dataset demo_frame) = length (records assembled)
       /\ forall i source_label text embedding,
            dataset demo_frame !! i = Some (source_label, text, embedding) ->
            records assembled !! i = Some (source_label, text).
Proof.
  split; [vm_compute; reflexivity|].
  destruct (order_invariant demo_service 80 demo_fs demo_dotenv ∅
              (demo_world 2) demo_notebook_run.2 demo_frame)
    as (assembled & g & gr & b & i & Hdf & _ & _ & _ & _ & _ & Hlen & Hrow & _).
  { vm_compute; reflexivity. }
  exists assembled. by repeat split.
Defined.

(** C2. In every run of the notebook that ends with a frame, the assembled
    records, the vectors returned by [get_embeddings] and the rows of the
    final dataset are equally many, and the vectors are the last column of
    the dataset. [get_embeddings] runs once, on the texts of the records,
    from the world that the display of the assembled frame leaves, and the
    run ends after the display and the pickling of the final frame. In the
    trace of the whole run the successful calls to the service are one per
    record, in the order of the records: none is embedded twice, none is
    skipped. *)
Theorem length_invariant {S : Type}
    (service : S -> list value -> string -> (exn + response) * S)
    (fuel : nat) (fs : gmap string string)
    (dotenv_values : gmap string (option string))
    (environ : gmap string string) (w w' : World S)
    (final_dataset : pd.frame) :
  run service fuel (notebook fs dotenv_values environ) w
  = Some (inr final_dataset, w') ->
  exists assembled text_list embedding_vectors w1 tr,
    df_combined fs = inr assembled
    /\ pd.getitem assembled "text" = inr text_list
    /\ text_list = (records assembled).*2
    /\ run service fuel (get_embeddings text_list)
         {| svc := svc w;
            trace := trace w ++ [EvPrint (OutFrame assembled)] |}
       = Some (embedding_vectors, w1)
    /\ w' = {| svc := svc w1;
               trace := trace w1
                        ++ [EvPrint (OutFrame final_dataset);
                            EvPrint (OutGroupCount final_dataset "type");
                            EvPickle final_dataset "data/text.pkl"] |}
    /\ pd.setitem assembled "openaiEmbeddings" (Vec <$> embedding_vectors)
       = inr final_dataset
    /\ length (records assembled) = length embedding_vectors
    /\ length embedding_vectors = length (dataset final_dataset)
    /\ length (dataset final_dataset) = length (pd.index final_dataset)
    /\ (dataset final_dataset).*2 = Vec <$> embedding_vectors
    /\ trace w' = trace w ++ tr
    /\ (successes tr).*1 = (fun text => [text]) <$> text_list
    /\ (successes tr).*2 = embedding_vectors
    /\ length (successes tr) = length (records assembled).
Proof.
  intros H. apply run_notebook_inv in H
    as (g & gr & b & i & os & vs & _ & _ & _ & _ & Hdf & _ & (w1 & Hrun & Hw')
        & Hos & Hlen & -> & Htr).
  set (l := flat_records (documents g gr b i)) in *.
  pose proof (Forall2_length _ _ _ Hos) as Hlen'.
  exists (frame_of_records l), (l.*2), vs, w1. eexists.
  rewrite records_frame_of_records, dataset_frame_with_embeddings.
  split; [done|]. split; [done|]. split; [done|]. split; [exact Hrun|].
  split; [exact Hw'|].
  split; [apply setitem_frame_of_records; lia|].
  split; [lia|]. split; [rewrite length_zip_with, length_fmap; lia|].
  split; [cbn [frame_with_embeddings pd.index];
          rewrite length_zip_with, length_fmap, length_seq; lia|].
  split; [apply snd_zip; rewrite length_fmap; lia|].
  split; [exact Htr|].
  rewrite !successes_app.
  rewrite (successes_record_traces _ _ _ Hos) by (by rewrite length_fmap).
  cbn [successes omap list_omap success app]. rewrite app_nil_r.
  split; [apply fst_zip; rewrite !length_fmap; lia|].
  split; [apply snd_zip; rewrite !length_fmap; lia|].
  rewrite length_zip_with, !length_fmap. lia.
Qed.

Lemma length_invariant_witness :
  run demo_service 80 (notebook demo_fs demo_dotenv ∅) (demo_world 2)
  = Some (inr demo_frame, demo_notebook_run.2)
  /\ exists assembled (embedding_vectors : list EmbeddingVector) tr,
       df_combined demo_fs = inr assembled
       /\ length (records assembled) = length embedding_vectors
       /\ length embedding_vectors = length (dataset demo_frame)
       /\ trace demo_notebook_run.2 = trace (demo_world 2) ++ tr
       /\ (successes tr).*2 = embedding_vectors
       /\ length (successes tr) = length (records assembled).
Proof.
  split; [vm_compute; reflexivity|].
  destruct (length_invariant demo_service 80 demo_fs demo_dotenv ∅
              (demo_world 2) demo_notebook_run.2 demo_frame)
    as (assembled & text_list & vs & w1 & tr & Hdf & _ & _ & _ & _ & _ & H1
        & H2 & _ & _ & Htr & _ & Hs & Hn).
  { vm_compute; reflexivity. }
  by exists assembled, vs, tr.
Defined.

(* ================================================================= *)
(** ** The configuration *)

(** C6. When [.env] gives nothing to load, or when the credential is in
    neither [.env] nor the process environment, the run of the notebook
    ends with an exception within two steps, whatever the service, and its
    trace holds no call to the service and no write of the output. When
    the four files are there, the exception is the one of the
    configuration check. *)
Theorem fatal_on_missing_configuration {S : Type}
    (service : S -> list value -> string -> (exn + response) * S)
    (fs : gmap string string) (dotenv_values : gmap string (option string))
    (environ : gmap string string) (w : World S) :
  dotenv_values = ∅ \/ credential_absent dotenv_values environ ->
  exists e tr,
    run service 2 (notebook fs dotenv_values environ) w
    = Some (inl e, {| svc := svc w; trace := trace w ++ tr |})
    /\ (forall fuel x,
          run service fuel (notebook fs dotenv_values environ) w = Some x ->
          x = (inl e, {| svc := svc w; trace := trace w ++ tr |}))
    /\ service_calls tr = 0
    /\ Forall (fun ev => is_pickle ev = false) tr
    /\ (forall df, df_combined fs = inr df ->
        e = if bool_decide (dotenv_values = ∅)
            then Exception "Couldn't load .env file"
            else EnvironmentError
                   "These environment variables are missing: ['OPENAI_API_KEY']").
Proof.
  intros Hmissing.
  assert (exists e tr,
            run service 2 (notebook fs dotenv_values environ) w
            = Some (inl e, {| svc := svc w; trace := trace w ++ tr |})
            /\ service_calls tr = 0
            /\ Forall (fun ev => is_pickle ev = false) tr
            /\ (forall df, df_combined fs = inr df ->
                e = if bool_decide (dotenv_values = ∅)
                    then Exception "Couldn't load .env file"
                    else EnvironmentError
                           "These environment variables are missing: ['OPENAI_API_KEY']"))
    as (e & tr & Hrun & Hcalls & Hpickle & He).
  { unfold notebook. destruct (df_combined fs) as [e0|df0] eqn:Hdf.
    - exists e0, []. rewrite app_nil_r. destruct w. by repeat split.
    - rewrite run_bind_trigger. cbn [handle fst snd]. unfold cell_2.
      destruct (decide (dotenv_values = ∅)) as [->|Hne].
      + rewrite check_configuration_unloaded. eexists _, [_].
        split; [reflexivity|]. split; [done|]. split; [by repeat constructor|].
        intros _ _. by rewrite bool_decide_eq_true_2.
      + destruct Hmissing as [?|Habs]; [done|].
        rewrite check_configuration_loaded by done.
        apply lookup_loaded in Habs. rewrite Habs. eexists _, [_].
        split; [reflexivity|]. split; [done|]. split; [by repeat constructor|].
        intros _ _. by rewrite bool_decide_eq_false_2. }
  exists e, tr. split; [done|]. split; [|done].
  intros fuel x Hx. exact (run_det service _ _ _ _ _ _ Hx Hrun).
Qed.

Lemma fatal_on_missing_configuration_witness :
  ((<["OPENAI_ORG" := Some "org-demo"]> ∅ : gmap string (option string)) = ∅
   \/ credential_absent (<["OPENAI_ORG" := Some "org-demo"]> ∅) ∅)
  /\ exists e tr,
       run demo_service 2
         (notebook demo_fs (<["OPENAI_ORG" := Some "org-demo"]> ∅) ∅)
         (demo_world 0)
       = Some (inl e, {| svc := 0; trace := [] ++ tr |})
       /\ service_calls tr = 0.
Proof.
  assert (credential_absent (<["OPENAI_ORG" := Some "org-demo"]> ∅) ∅) as Habs.
  { split; [reflexivity|left; vm_compute; reflexivity]. }
  split; [by right|].
  destruct (fatal_on_missing_configuration demo_service demo_fs
              (<["OPENAI_ORG" := Some "org-demo"]> ∅) ∅ (demo_world 0)
              (or_intror Habs))
    as (e & tr & Hrun & _ & Hcalls & _).
  by exists e, tr.
Defined.

(* ================================================================= *)
(** ** The dataset builder *)

(** C5, as the notebook has it. The notebook itself compares no lengths:
    the assignment [df_combined['openaiEmbeddings'] = embedding_results] is
    checked by pandas. For a frame with at least one row and a list of
    another length the assignment raises [ValueError], and the run ends
    there with the world as it was: nothing is displayed or written. With
    equal lengths the list becomes the column as it is and the other
    columns and the index stay. A frame without rows takes its rows from a
    non-empty list, its other columns filled with [NaN]. In a run of the
    notebook the lengths agree: an exception that ends the run is one of
    cell 1 or of the configuration check, never one of the builder. *)
Theorem builder_length_check (df : pd.frame)
    (embedding_results : list EmbeddingVector) :
  let val := Vec <$> embedding_results in
  (pd.index df <> [] ->
   length embedding_results <> length (pd.index df) ->
   exists msg,
     pd.setitem df "openaiEmbeddings" val = inl (ValueError msg)
     /\ forall (S : Type)
          (service : S -> list value -> string -> (exn + response) * S)
          (fuel : nat) (w : World S),
          run service (Datatypes.S fuel) (build_and_save df embedding_results) w
          = Some (inl (ValueError msg), w))
  /\ (length embedding_results = length (pd.index df) ->
      exists df',
        pd.setitem df "openaiEmbeddings" val = inr df'
        /\ pd.index df' = pd.index df
        /\ pd.lookup_column "openaiEmbeddings" (pd.columns df') = Some val
        /\ forall key, key <> "openaiEmbeddings" ->
             pd.lookup_column key (pd.columns df')
             = pd.lookup_column key (pd.columns df))
  /\ (pd.index df = [] -> embedding_results <> [] ->
      pd.setitem df "openaiEmbeddings" val
      = inr {| pd.index := seq 0 (length embedding_results);
               pd.columns :=
                 pd.set_column "openaiEmbeddings" val
                   ((fun kc => (kc.1, replicate (length embedding_results) NaN))
                      <$> pd.columns df) |})
  /\ (forall (S : Type)
        (service : S -> list value -> string -> (exn + response) * S)
        fuel fs dotenv_values environ (w w' : World S) e,
        run service fuel (notebook fs dotenv_values environ) w
        = Some (inl e, w') ->
        df_combined fs = inl e
        \/ check_configuration dotenv_values environ = inl e).
Proof.
  intros val. split; [|split; [|split]]; [| | |intros; by eapply run_notebook_error].
  - intros Hidx Hlen. eexists. split.
    + apply setitem_length_mismatch; [done|]. unfold val. by rewrite length_fmap.
    + intros S service fuel w. unfold build_and_save. fold val.
      rewrite setitem_length_mismatch; [done..|]. unfold val. by rewrite length_fmap.
  - intros Hlen. eexists. split.
    + apply setitem_same_length. unfold val. by rewrite length_fmap.
    + cbn [pd.index pd.columns]. split; [done|]. split.
      * by rewrite lookup_set_column, String.eqb_refl.
      * intros key Hkey. rewrite lookup_set_column.
        by rewrite (proj2 (String.eqb_neq _ _)) by done.
  - intros Hidx Hne. rewrite setitem_empty_frame; [|done|].
    + unfold val. by rewrite length_fmap.
    + unfold val. by destruct embedding_results.
Qed.

Lemma builder_length_check_witness :
  pd.index (frame_of_records [(Str "goats", Str "Goats")]) <> []
  /\ length ([] : list EmbeddingVector)
     <> length (pd.index (frame_of_records [(Str "goats", Str "Goats")]))
  /\ exists msg,
       pd.setitem (frame_of_records [(Str "goats", Str "Goats")])
         "openaiEmbeddings" []
       = inl (ValueError msg).
Proof.
  assert (pd.index (frame_of_records [(Str "goats", Str "Goats")]) <> [])
    as Hidx by (vm_compute; discriminate).
  assert (length ([] : list EmbeddingVector)
          <> length (pd.index (frame_of_records [(Str "goats", Str "Goats")])))
    as Hlen by (vm_compute; discriminate).
  split; [exact Hidx|]. split; [exact Hlen|].
  destruct (builder_length_check
              (frame_of_records [(Str "goats", Str "Goats")]) [])
    as (Herr & _ & _ & _).
  destruct (Herr Hidx Hlen) as (msg & Hmsg & _). by exists msg.
Defined.

(** C5 as the spec states it fails on a frame without rows: one vector
    for no record is accepted, and a row of missing values appears. *)
Lemma builder_pads_empty_frame :
  let records0 : list (value * value) := [] in
  let embedding_results : list EmbeddingVector := [[0.5%float]] in
  length embedding_results <> length records0
  /\ df_combined empty_fs = inr (frame_of_records records0)
  /\ records (frame_of_records records0) = records0
  /\ pd.setitem (frame_of_records records0) "openaiEmbeddings"
       (Vec <$> embedding_results)
     = inr {| pd.index := [0];
              pd.columns := [("type", [NaN]); ("text", [NaN]);
                             ("openaiEmbeddings", [Vec [0.5%float]])] |}.
Proof.
  cbv zeta. split; [done|]. split; [vm_compute; reflexivity|]. by split.
Qed.

(* ================================================================= *)
(** ** The corpus loader *)

(** C9, as the notebook has it. [read_file] strips nothing of what text
    mode hands over, and text mode translates the terminators. Every file
    is a sequence of terminated lines, each a body without CR or LF
    followed by LF, CR LF or a lone CR, and a rest after the last
    terminator; it is read as the bodies in order, each with one LF in the
    place of its terminator, followed by the rest when there is one. So
    each line but the last ends with LF, and the last one does exactly
    when the file ends with a terminator; no line has an LF before its
    end or any CR; the lines joined are the translated text, and the file
    itself when it holds no CR. In a run of the notebook that ends with a
    frame, these lines are, as they are, the texts submitted to the
    service and the text column of the final dataset. *)
Theorem read_file_keeps_line_terminators :
  (forall (fs : gmap string string) (file_path content : string),
     fs !! file_path = Some content ->
     let text := universal_newlines content in
     let lines := readlines text in
     read_file fs file_path = inr lines
     /\ String.concat "" lines = text
     /\ has_CR text = false
     /\ (has_CR content = false -> String.concat "" lines = content)
     /\ Forall (fun l => l <> EmptyString /\ LF_only_last l = true) lines
     /\ (forall i l, lines !! i = Some l -> Datatypes.S i < length lines ->
         ends_with_LF l = true)
     /\ (forall l, last lines = Some l ->
         ends_with_LF l = ends_with_LF text
         /\ ends_with_LF l = ends_with_terminator content)
     /\ exists (ls : list (string * terminator)) (rest : string),
          content = file_text ls rest
          /\ Forall (fun l => plain l.1 = true) ls
          /\ plain rest = true
          /\ lone_CR_ok ls rest = true
          /\ lines = ((fun l => l.1 +:+ nl) <$> ls)
                     ++ (if String.eqb rest EmptyString then [] else [rest]))
  /\ (forall (fs : gmap string string) (file_path : string)
        (ls : list (string * terminator)) (rest : string),
        Forall (fun l => plain l.1 = true) ls ->
        plain rest = true ->
        lone_CR_ok ls rest = true ->
        fs !! file_path = Some (file_text ls rest) ->
        read_file fs file_path
        = inr (((fun l => l.1 +:+ nl) <$> ls)
               ++ (if String.eqb rest EmptyString then [] else [rest])))
  /\ (forall (S : Type)
        (service : S -> list value -> string -> (exn + response) * S)
        fuel fs dotenv_values environ (w w' : World S) df,
        run service fuel (notebook fs dotenv_values environ) w
        = Some (inr df, w') ->
        exists goats_lines gravity_lines blackholes_lines invasivegoats_lines tr,
          read_file fs "docs/goats.txt" = inr goats_lines
          /\ read_file fs "docs/gravity.txt" = inr gravity_lines
          /\ read_file fs "docs/blackholes.txt" = inr blackholes_lines
          /\ read_file fs "docs/invasivegoats.txt" = inr invasivegoats_lines
          /\ let lines := goats_lines ++ gravity_lines ++ blackholes_lines
                          ++ invasivegoats_lines in
             (records df).*2 = Str <$> lines
             /\ trace w' = trace w ++ tr
             /\ (successes tr).*1 = (fun l => [Str l]) <$> lines).
Proof.
  split; [|split].
  - intros fs file_path content Hfile text lines.
    split; [unfold read_file; by rewrite Hfile|].
    split; [apply concat_readlines|].
    split; [apply universal_newlines_no_CR|].
    split; [intros Hcr; unfold lines, text;
            by rewrite concat_readlines, universal_newlines_id|].
    split; [apply readlines_units|].
    split; [apply readlines_terminated|].
    split.
    { intros l Hl. split; [by apply readlines_last|].
      rewrite <- ends_with_LF_universal_newlines. by apply readlines_last. }
    destruct (cut_lines_file_text content) as (Htext & Hls & Hrest & Hok).
    exists (cut_lines content).1, (cut_lines content).2.
    repeat (split; [done|]). unfold lines, text.
    rewrite <- Htext at 1. by apply readlines_file_text.
  - intros fs file_path ls rest Hls Hrest Hok Hfile.
    unfold read_file. rewrite Hfile. f_equal. by apply readlines_file_text.
  - intros S service fuel fs dv environ w w' df H.
    apply run_notebook_inv in H
      as (g & gr & b & i & os & vs & Hg & Hgr & Hb & Hi & _ & _ & _ & Hos & Hlen & -> & Htr).
    exists g, gr, b, i. eexists. repeat (split; [done|]). cbn zeta.
    rewrite records_frame_with_embeddings.
    assert ((flat_records (documents g gr b i)).*2 = Str <$> (g ++ gr ++ b ++ i))
      as Htexts.
    { unfold flat_records, documents, labelled.
      rewrite !fmap_cons, !concat_cons. cbn [fst snd concat].
      rewrite app_nil_r, !fmap_app, <- !list_fmap_compose. done. }
    split; [done|]. split; [exact Htr|].
    rewrite !successes_app.
    rewrite (successes_record_traces _ _ _ Hos) by (by rewrite length_fmap).
    cbn [successes omap list_omap success app].
    rewrite app_nil_r, fst_zip.
    + by rewrite Htexts, <- list_fmap_compose.
    + apply Forall2_length in Hos. rewrite !length_fmap. lia.
Qed.

Lemma read_file_keeps_line_terminators_witness :
  Forall (fun l : string * terminator => plain l.1 = true)
    [("Goats", T_CRLF); ("Grazing", T_CR); ("Herds", T_LF)]
  /\ plain "Kids" = true
  /\ lone_CR_ok [("Goats", T_CRLF); ("Grazing", T_CR); ("Herds", T_LF)] "Kids"
     = true
  /\ mixed_fs !! "docs/goats.txt"
     = Some (file_text [("Goats", T_CRLF); ("Grazing", T_CR); ("Herds", T_LF)]
               "Kids")
  /\ read_file mixed_fs "docs/goats.txt"
     = inr ["Goats" +:+ nl; "Grazing" +:+ nl; "Herds" +:+ nl; "Kids"].
Proof.
  assert (Forall (fun l : string * terminator => plain l.1 = true)
            [("Goats", T_CRLF); ("Grazing", T_CR); ("Herds", T_LF)]) as Hls
    by (repeat constructor).
  assert (mixed_fs !! "docs/goats.txt"
          = Some (file_text
                    [("Goats", T_CRLF); ("Grazing", T_CR); ("Herds", T_LF)]
                    "Kids")) as Hfile by (vm_compute; reflexivity).
  split; [exact Hls|]. split; [reflexivity|]. split; [reflexivity|].
  split; [exact Hfile|].
  destruct read_file_keeps_line_terminators as (_ & Hread & _).
  exact (Hread mixed_fs "docs/goats.txt" _ "Kids" Hls eq_refl eq_refl Hfile).
Defined.

(** C9 as it is stated fails on a file with CR LF terminators, and on one
    with a lone CR: the first record is not the raw line, whose CR is
    gone, and the lines joined are not the file. *)
Lemma read_file_translates_CRLF :
  let content := "Goats" +:+ crnl +:+ "Grazing" in
  crlf_fs !! "docs/goats.txt" = Some content
  /\ read_file crlf_fs "docs/goats.txt" = inr ["Goats" +:+ nl; "Grazing"]
  /\ "Goats" +:+ nl <> "Goats" +:+ crnl
  /\ String.concat "" ["Goats" +:+ nl; "Grazing"] <> content
  /\ cr_fs !! "docs/goats.txt" = Some ("Goats" +:+ cr +:+ "Grazing")
  /\ read_file cr_fs "docs/goats.txt" = inr ["Goats" +:+ nl; "Grazing"]
  /\ "Goats" +:+ nl <> "Goats" +:+ cr.
Proof.
  repeat split; try (vm_compute; reflexivity); vm_compute; discriminate.
Qed.

(* ================================================================= *)
(** ** More on the loader *)

Lemma line_ok_cons (c : Ascii.ascii) (l : string) :
  l <> EmptyString -> line_ok (String c l) = true ->
  Ascii.eqb c LF = false /\ line_ok l = true.
Proof.
  unfold line_ok. destruct l as [|c' l]; [done|]. intros _.
  cbn [String.eqb negb andb LF_only_last].
  destruct (Ascii.eqb c LF); [done|]. cbn [negb andb]. done.
Qed.

Lemma readlines_one_line (l : string) :
  line_ok l = true -> readlines l = [l].
Proof.
  induction l as [|c l IH]; [done|]. intros Hok.
  destruct l as [|c' l].
  - cbn. by destruct (Ascii.eqb c LF).
  - apply line_ok_cons in Hok as [Hc Hl]; [|done].
    cbn [readlines]. rewrite Hc. cbn [readlines] in IH. by rewrite (IH Hl).
Qed.

Lemma readlines_line_app (l s : string) :
  LF_only_last l = true -> ends_with_LF l = true ->
  readlines (l +:+ s) = l :: readlines s.
Proof.
  induction l as [|c l IH]; [done|]. intros Hlast Hend.
  rewrite append_cons. destruct l as [|c' l].
  - cbn in Hend. cbn [readlines String.append]. by rewrite Hend.
  - cbn [LF_only_last] in Hlast. apply andb_prop in Hlast as [Hc Hl].
    apply negb_true_iff in Hc. cbn [readlines]. rewrite Hc.
    cbn [readlines] in IH. by rewrite (IH Hl Hend).
Qed.

(** X2. [readlines] undoes the joining of lines: a list of lines that has
    the shape of an output of [readlines] (no empty line, no LF inside a
    line, an LF at the end of every line but the last) is read back from
    its concatenation as it is. *)
Theorem readlines_of_joined_lines (ls : list string) :
  lines_ok ls = true -> readlines (String.concat "" ls) = ls.
Proof.
  induction ls as [|l ls IH]; [done|]. cbn [lines_ok String.concat].
  destruct ls as [|l' ls].
  - apply readlines_one_line.
  - intros [[Hl Hend]%andb_prop Hls]%andb_prop.
    unfold line_ok in Hl. apply andb_prop in Hl as [_ Hlast].
    change ("" +:+ String.concat "" (l' :: ls))
      with (String.concat "" (l' :: ls)).
    rewrite readlines_line_app by done. by rewrite IH.
Qed.

Lemma readlines_of_joined_lines_witness :
  lines_ok ["Goats" +:+ nl; nl; "Grazing"] = true
  /\ readlines (String.concat "" ["Goats" +:+ nl; nl; "Grazing"])
     = ["Goats" +:+ nl; nl; "Grazing"].
Proof.
  split; [reflexivity|].
  apply (readlines_of_joined_lines ["Goats" +:+ nl; nl; "Grazing"]).
  reflexivity.
Defined.

(** X3. Reading two texts one after the other: when the first text is
    empty or ends with LF, the lines of the concatenation are the lines of
    the first followed by the lines of the second. *)
Theorem readlines_app (s1 s2 : string) :
  s1 = EmptyString \/ ends_with_LF s1 = true ->
  readlines (s1 +:+ s2) = readlines s1 ++ readlines s2.
Proof.
  induction s1 as [|c s1 IH]; [done|]. intros [?|Hend]; [done|].
  rewrite append_cons. cbn [readlines].
  destruct s1 as [|c' s1].
  - cbn in Hend. rewrite Hend. done.
  - cbn [ends_with_LF] in Hend. rewrite (IH (or_intror Hend)).
    destruct (Ascii.eqb c LF); [done|].
    pose proof (readlines_nil (String c' s1)) as Hnil.
    by destruct (readlines (String c' s1)) as [|l ls]; [discriminate Hnil|].
Qed.

Lemma readlines_app_witness :
  ("" = EmptyString \/ ends_with_LF ("Goats" +:+ nl) = true)
  /\ readlines (("Goats" +:+ nl) +:+ "Grazing")
     = readlines ("Goats" +:+ nl) ++ readlines "Grazing".
Proof.
  split; [by left|].
  apply (readlines_app ("Goats" +:+ nl) "Grazing"). right. reflexivity.
Defined.

(** X4. The number of lines read is the number of LF of the text, plus
    one when the text ends with an unterminated line. *)
Theorem length_readlines (s : string) :
  length (readlines s)
  = count_LF s
    + (if String.eqb s EmptyString || ends_with_LF s then 0 else 1).
Proof.
  induction s as [|c s IH]; [done|]. cbn [readlines count_LF].
  destruct s as [|c' s].
  - cbn. by destruct (Ascii.eqb c LF).
  - rewrite (ends_with_LF_cons c (String c' s)) by done.
    change (String.eqb (String c (String c' s)) EmptyString) with false.
    change (String.eqb (String c' s) EmptyString) with false in IH.
    cbn [orb] in *.
    destruct (Ascii.eqb c LF).
    + cbn [length]. rewrite IH. lia.
    + pose proof (readlines_nil (String c' s)) as Hnil.
      destruct (readlines (String c' s)) as [|l ls]; [by discriminate Hnil|].
      cbn [length] in *. rewrite IH. lia.
Qed.

(* ================================================================= *)
(** ** More on cell 1 and on frames *)


Lemma index_concat_DataFrames (docs : list (string * list string)) :
  concat (pd.index <$> ((fun d => pd.DataFrame d.1 d.2) <$> docs))
  = concat ((fun d => seq 0 (length d.2)) <$> docs).
Proof.
  induction docs as [|d docs IH]; [done|].
  rewrite !fmap_cons, !concat_cons, IH. done.
Qed.

Lemma zero_in_concat_ranges (docs : list (string * list string))
    (d : string * list string) :
  d ∈ docs -> d.2 <> [] ->
  0 ∈ concat ((fun d => seq 0 (length d.2)) <$> docs).
Proof.
  intros Hd Hne. induction Hd as [d docs|d d' docs _ IH].
  - rewrite fmap_cons, concat_cons. apply elem_of_app. left.
    destruct d as [label [|x lines]]; [done|]. cbn. left.
  - rewrite fmap_cons, concat_cons. apply elem_of_app. right. by apply IH.
Qed.

(** X5. [pd.concat] keeps the row labels of each frame, so that with two
    documents that have lines the label 0 occurs twice; the index of
    [df_combined], after [reset_index(drop=True)], numbers the rows from 0
    without repetition. *)
Theorem rows_renumbered :
  (forall (fs : gmap string string) (df : pd.frame),
     df_combined fs = inr df ->
     pd.index df = seq 0 (length (records df)) /\ NoDup (pd.index df))
  /\ (forall (pre mid post : list (string * list string))
        (d1 d2 : string * list string) (df : pd.frame),
        d1.2 <> [] -> d2.2 <> [] ->
        pd.concat ((fun d => pd.DataFrame d.1 d.2)
                     <$> (pre ++ d1 :: mid ++ d2 :: post)) = inr df ->
        pd.index df
        = concat ((fun d => seq 0 (length d.2))
                    <$> (pre ++ d1 :: mid ++ d2 :: post))
        /\ ~ NoDup (pd.index df)).
Proof.
  split.
  - intros fs df (g & gr & b & i & _ & _ & _ & _ & ->)%df_combined_inv.
    rewrite records_frame_of_records. split; [done|]. apply NoDup_seq.
  - intros pre mid post d1 d2 df Hd1 Hd2 Hdf.
    assert (pd.index df
            = concat ((fun d => seq 0 (length d.2))
                        <$> (pre ++ d1 :: mid ++ d2 :: post))) as Hidx.
    { rewrite <- index_concat_DataFrames. unfold pd.concat in Hdf.
      destruct ((fun d => pd.DataFrame d.1 d.2) <$> (pre ++ d1 :: mid ++ d2 :: post));
        [done|]. by injection Hdf as <-. }
    split; [done|]. rewrite Hidx, fmap_app, concat_app, fmap_cons, concat_cons.
    intros (_ & _ & Hnd)%NoDup_app. apply NoDup_app in Hnd as (_ & Hnot & _).
    apply (Hnot 0).
    + destruct d1 as [label [|x lines]]; [done|]. cbn. left.
    + apply (zero_in_concat_ranges _ d2); [|done].
      apply elem_of_app. right. left.
Qed.

Lemma rows_renumbered_witness :
  ("goats", ["Goats"]).2 <> [] /\ ("gravity", ["LIGO"]).2 <> []
  /\ pd.concat [pd.DataFrame "goats" ["Goats"]; pd.DataFrame "gravity" ["LIGO"]]
     = inr {| pd.index := [0; 0];
              pd.columns := [("type", [Str "goats"; Str "gravity"]);
                             ("text", [Str "Goats"; Str "LIGO"])] |}
  /\ ~ NoDup [0; 0].
Proof.
  assert (("goats", ["Goats"]).2 <> ([] : list string)) as H1 by done.
  assert (("gravity", ["LIGO"]).2 <> ([] : list string)) as H2 by done.
  split; [exact H1|]. split; [exact H2|]. split; [reflexivity|].
  destruct rows_renumbered as [_ Hdup].
  exact (proj2 (Hdup [] [] [] ("goats", ["Goats"]) ("gravity", ["LIGO"]) _
                  H1 H2 eq_refl)).
Defined.

Lemma lookup_column_elem (key : string) (cols : list (string * list value))
    (c : list value) :
  pd.lookup_column key cols = Some c -> exists k, (k, c) ∈ cols.
Proof.
  induction cols as [|[k c'] cols IH]; [done|]. cbn [pd.lookup_column].
  destruct (String.eqb k key).
  - intros [= ->]. exists k. left.
  - intros (k' & Hk)%IH. exists k'. by right.
Qed.

Lemma length_column_or_NaN (key : string) (df : pd.frame) :
  rectangular df ->
  length (pd.column_or_NaN key df) = length (pd.index df).
Proof.
  intros Hrect. unfold pd.column_or_NaN.
  destruct (pd.lookup_column key (pd.columns df)) as [c|] eqn:Hc; cbn.
  - apply lookup_column_elem in Hc as [k Hk].
    unfold rectangular in Hrect. rewrite Forall_forall in Hrect.
    apply (Hrect _ Hk).
  - apply length_replicate.
Qed.

Lemma length_concat_columns (key : string) (objs : list pd.frame) :
  Forall rectangular objs ->
  length (concat (pd.column_or_NaN key <$> objs))
  = length (concat (pd.index <$> objs)).
Proof.
  induction 1 as [|o objs Ho _ IH]; [done|].
  rewrite !fmap_cons, !concat_cons, !length_app, IH.
  by rewrite length_column_or_NaN.
Qed.

Lemma Forall_set_column (P : string * list value -> Prop) (key : string)
    (val : list value) (cols : list (string * list value)) :
  (forall k, P (k, val)) -> Forall P cols ->
  Forall P (pd.set_column key val cols).
Proof.
  intros Hval. induction 1 as [|[k c] cols Hc Hcols IH]; cbn [pd.set_column].
  - constructor; [apply Hval|constructor].
  - destruct (String.eqb k key); constructor; done.
Qed.

(** X6. Frames stay rectangular: the frame of [pd.DataFrame] is, the
    result of [pd.concat] on rectangular frames is, [reset_index] keeps a
    frame so, and so does a column assignment that succeeds, also when it
    gives rows to a frame that had none. Hence the frame at the end of a
    run of the notebook has one cell per row in each column. *)
Theorem frames_stay_rectangular :
  (forall (type : string) (text : list string),
     rectangular (pd.DataFrame type text))
  /\ (forall (objs : list pd.frame) (df : pd.frame),
        Forall rectangular objs -> pd.concat objs = inr df -> rectangular df)
  /\ (forall df : pd.frame, rectangular df -> rectangular (pd.reset_index df))
  /\ (forall (df df' : pd.frame) (key : string) (val : list value),
        rectangular df -> pd.setitem df key val = inr df' -> rectangular df')
  /\ (forall (S : Type)
        (service : S -> list value -> string -> (exn + response) * S)
        fuel fs dotenv_values environ (w w' : World S) df,
        run service fuel (notebook fs dotenv_values environ) w
        = Some (inr df, w') ->
        rectangular df).
Proof.
  split; [|split; [|split; [|split]]].
  - intros type text. unfold rectangular, pd.DataFrame. cbn.
    repeat constructor; cbn;
      by rewrite ?length_replicate, ?length_fmap, length_seq.
  - intros objs df Hobjs Hdf. unfold pd.concat in Hdf.
    destruct objs as [|o objs]; [done|]. injection Hdf as <-.
    unfold rectangular. cbn [pd.columns pd.index].
    apply Forall_fmap, Forall_forall. intros key _.
    by apply (length_concat_columns key (o :: objs)).
  - intros df Hdf. unfold rectangular, pd.reset_index in *.
    cbn [pd.columns pd.index]. rewrite length_seq. done.
  - intros df df' key val Hdf Hset. unfold pd.setitem in Hset.
    destruct (Nat.eqb_spec (length val)
                (length (pd.index (pd.ensure_valid_index df val))))
      as [Hlen|]; [|done].
    injection Hset as <-. unfold rectangular. cbn [pd.columns pd.index].
    apply Forall_set_column; [done|].
    unfold rectangular in Hdf. clear Hlen. revert Hdf.
    unfold pd.ensure_valid_index.
    destruct (pd.index df) as [|i0 idx] eqn:Hidx; [|by rewrite Hidx].
    destruct val as [|x val]; [by rewrite Hidx|]. intros _.
    cbn [pd.columns pd.index]. apply Forall_fmap, Forall_forall.
    intros kc _. cbn. by rewrite length_replicate, length_seq.
  - intros S service fuel fs dv environ w w' df H.
    apply run_notebook_inv in H
      as (g & gr & b & i & os & vs & _ & _ & _ & _ & _ & _ & _ & Hos & Hlen & -> & _).
    apply Forall2_length in Hos.
    unfold rectangular, frame_with_embeddings. cbn [pd.columns pd.index].
    repeat constructor; cbn [snd]; rewrite !length_fmap, length_seq; lia.
Qed.

Lemma frames_stay_rectangular_witness :
  rectangular (frame_of_records [])
  /\ pd.setitem (frame_of_records []) "openaiEmbeddings" [Vec [0.5%float]]
     = inr {| pd.index := [0];
              pd.columns := [("type", [NaN]); ("text", [NaN]);
                             ("openaiEmbeddings", [Vec [0.5%float]])] |}
  /\ rectangular {| pd.index := [0];
                    pd.columns := [("type", [NaN]); ("text", [NaN]);
                                   ("openaiEmbeddings", [Vec [0.5%float]])] |}.
Proof.
  assert (rectangular (frame_of_records [])) as Hrect
    by (by repeat constructor).
  split; [exact Hrect|]. split; [reflexivity|].
  destruct frames_stay_rectangular as (_ & _ & _ & Hset & _).
  exact (Hset (frame_of_records []) _ "openaiEmbeddings" [Vec [0.5%float]]
           Hrect eq_refl).
Defined.

Lemma set_column_twice (key : string) (v1 v2 : list value)
    (cols : list (string * list value)) :
  pd.set_column key v2 (pd.set_column key v1 cols) = pd.set_column key v2 cols.
Proof.
  induction cols as [|[k c] cols IH]; cbn [pd.set_column].
  - by rewrite String.eqb_refl.
  - destruct (String.eqb k key) eqn:Hk; cbn [pd.set_column]; rewrite Hk; [done|].
    by rewrite IH.
Qed.

Lemma set_column_names (key : string) (val : list value)
    (cols : list (string * list value)) :
  (pd.set_column key val cols).*1
  = if bool_decide (key ∈ cols.*1) then cols.*1 else cols.*1 ++ [key].
Proof.
  induction cols as [|[k c] cols IH]; cbn [pd.set_column]; [done|].
  destruct (String.eqb_spec k key) as [->|Hne].
  - rewrite bool_decide_eq_true_2; [done|]. cbn. left.
  - rewrite !fmap_cons, IH. cbn [fst].
    destruct (decide (key ∈ cols.*1)) as [Hin|Hnin].
    + rewrite !bool_decide_eq_true_2; [done| |done]. by right.
    + rewrite !bool_decide_eq_false_2; [done| |done].
      intros [?|?]%elem_of_cons; [congruence|done].
Qed.

(** X7. Assigning the column a second time, with a list of the length of
    the first, is assigning it once: the second list replaces the first
    where it stands, and no column is added. This is what executing the
    assignment of line 311 again does to [df_combined]. *)
Theorem setitem_again (df df1 : pd.frame) (key : string)
    (v1 v2 : list value) :
  pd.setitem df key v1 = inr df1 -> length v2 = length v1 ->
  pd.setitem df1 key v2 = pd.setitem df key v2
  /\ exists df2,
       pd.setitem df1 key v2 = inr df2
       /\ pd.index df2 = pd.index df1
       /\ (pd.columns df2).*1 = (pd.columns df1).*1
       /\ pd.lookup_column key (pd.columns df2) = Some v2.
Proof.
  intros Hset Hlen.
  assert (exists idx cols,
            df1 = {| pd.index := idx;
                     pd.columns := pd.set_column key v1 cols |}
            /\ length v1 = length idx
            /\ pd.setitem df key v2
               = inr {| pd.index := idx;
                        pd.columns := pd.set_column key v2 cols |})
    as (idx & cols & -> & Hidx & Hdf).
  { destruct (decide (length v1 = length (pd.index df))) as [Heq|Hneq].
    - exists (pd.index df), (pd.columns df).
      rewrite setitem_same_length in Hset by done. injection Hset as <-.
      split; [done|]. split; [done|]. apply setitem_same_length. lia.
    - destruct (decide (pd.index df = [])) as [Hi|Hi].
      + assert (v1 <> []) as Hv1 by (intros ->; by rewrite Hi in Hneq).
        assert (v2 <> []) as Hv2 by (intros ->; by destruct v1).
        rewrite setitem_empty_frame in Hset by done. injection Hset as <-.
        eexists _, _. split; [reflexivity|]. split; [by rewrite length_seq|].
        rewrite setitem_empty_frame by done. by rewrite Hlen.
      + by rewrite setitem_length_mismatch in Hset. }
  assert (pd.setitem {| pd.index := idx;
                        pd.columns := pd.set_column key v1 cols |} key v2
          = inr {| pd.index := idx; pd.columns := pd.set_column key v2 cols |})
    as Hagain.
  { rewrite setitem_same_length by (cbn [pd.index]; lia).
    cbn [pd.index pd.columns]. by rewrite set_column_twice. }
  split; [by rewrite Hagain, Hdf|]. eexists. split; [exact Hagain|].
  cbn [pd.index pd.columns]. split; [done|]. split.
  - rewrite !set_column_names. by destruct (bool_decide (key ∈ cols.*1)).
  - by rewrite lookup_set_column, String.eqb_refl.
Qed.

Lemma setitem_again_witness :
  pd.setitem (frame_of_records [(Str "goats", Str "Goats")])
    "openaiEmbeddings" [Vec [0.5%float]]
  = inr (frame_with_embeddings [(Str "goats", Str "Goats")] [[0.5%float]])
  /\ length [Vec [0.125%float]] = length [Vec [0.5%float]]
  /\ pd.setitem
       (frame_with_embeddings [(Str "goats", Str "Goats")] [[0.5%float]])
       "openaiEmbeddings" [Vec [0.125%float]]
     = pd.setitem (frame_of_records [(Str "goats", Str "Goats")])
         "openaiEmbeddings" [Vec [0.125%float]].
Proof.
  split; [reflexivity|]. split; [reflexivity|].
  exact (proj1 (setitem_again
                  (frame_of_records [(Str "goats", Str "Goats")])
                  (frame_with_embeddings [(Str "goats", Str "Goats")]
                     [[0.5%float]])
                  "openaiEmbeddings" [Vec [0.5%float]] [Vec [0.125%float]]
                  eq_refl eq_refl)).
Defined.

(* ================================================================= *)
(** ** Cell 3: the rows of each label *)

Lemma keys_flat_records (docs : list (string * list string)) :
  omap str_of ((flat_records docs).*1)
  = concat ((fun d => replicate (length d.2) d.1) <$> docs).
Proof.
  unfold flat_records. induction docs as [|[label lines] docs IH]; [done|].
  rewrite !fmap_cons, !concat_cons, fmap_app, omap_app, IH. f_equal.
  unfold labelled. cbn [fst snd]. clear.
  induction lines as [|x lines IH]; [done|]. cbn. by rewrite <- IH.
Qed.

Lemma no_Vec_key (docs : list (string * list string)) :
  existsb is_Vec ((flat_records docs).*1) = false.
Proof.
  unfold flat_records. induction docs as [|[label lines] docs IH]; [done|].
  rewrite !fmap_cons, !concat_cons, fmap_app, existsb_app, IH, orb_false_r.
  unfold labelled. cbn [fst snd]. clear.
  induction lines as [|x lines IH]; [done|]. done.
Qed.

Lemma elem_of_keys (docs : list (string * list string)) (x : string) :
  x ∈ concat ((fun d => replicate (length d.2) d.1) <$> docs)
  <-> x ∈ (filter (fun d => d.2 <> []) docs).*1.
Proof.
  induction docs as [|[label lines] docs IH].
  - done.
  - rewrite fmap_cons, concat_cons, elem_of_app, IH, filter_cons. cbn [fst snd].
    destruct lines as [|l lines].
    + rewrite decide_False by (by intros ?). cbn. split; [|by right].
      by intros [?%elem_of_nil|?].
    + rewrite decide_True by done. rewrite fmap_cons, elem_of_cons. cbn [fst].
      split.
      * intros [[-> _]%elem_of_replicate|?]; [by left|by right].
      * intros [->|?]; [left|by right]. apply elem_of_replicate.
        split; [done|]. cbn. lia.
Qed.

Lemma group_keys_flat_records (docs : list (string * list string)) :
  group_keys ((flat_records docs).*1)
  = merge_sort String.le (remove_dups (filter (fun d => d.2 <> []) docs).*1).
Proof.
  unfold group_keys. apply (Sorted_unique String.le).
  - apply Sorted_merge_sort; apply _.
  - apply Sorted_merge_sort; apply _.
  - rewrite !merge_sort_Permutation.
    apply NoDup_Permutation; [apply NoDup_remove_dups..|].
    intros x. by rewrite !elem_of_remove_dups, keys_flat_records, elem_of_keys.
Qed.

Lemma count_in_group_no_null (label : string) (keys cells : list value) :
  Forall (fun c => is_null c = false) cells -> length cells = length keys ->
  count_in_group label keys cells
  = length (filter (fun k => str_of k = Some label) keys).
Proof.
  unfold count_in_group. intros Hcells. revert keys.
  induction Hcells as [|c cells Hc _ IH]; intros [|k keys] Hlen; try done.
  cbn [zip zip_with]. rewrite !filter_cons. cbn [fst snd].
  injection Hlen as Hlen.
  destruct (decide (str_of k = Some label)) as [Hk|Hk].
  - rewrite decide_True by done. cbn [length]. by rewrite IH.
  - rewrite decide_False by (by intros [? _]). by apply IH.
Qed.

Lemma rows_with_label (label : string) (docs : list (string * list string)) :
  length (filter (fun k => str_of k = Some label) ((flat_records docs).*1))
  = rows_of label docs.
Proof.
  unfold flat_records, rows_of.
  induction docs as [|[label' lines] docs IH]; [done|].
  rewrite !fmap_cons, !concat_cons, fmap_app, filter_app, length_app, IH.
  rewrite (filter_cons (fun d => d.1 = label)). cbn [fst snd].
  assert (length (filter (fun k => str_of k = Some label)
                    ((labelled (label', lines)).*1))
          = if decide (label' = label) then length lines else 0) as ->.
  { unfold labelled. cbn [fst snd]. clear.
    induction lines as [|x lines IH]; [by destruct (decide _)|].
    rewrite !fmap_cons, filter_cons. cbn [fst str_of].
    destruct (decide (label' = label)) as [->|Hne].
    - rewrite decide_True by done. cbn. by rewrite IH.
    - rewrite decide_False by congruence. done. }
  destruct (decide (label' = label)); [|done]. rewrite fmap_cons. done.
Qed.

Lemma no_null_in_records (docs : list (string * list string)) :
  Forall (fun c => is_null c = false) ((flat_records docs).*1)
  /\ Forall (fun c => is_null c = false) ((flat_records docs).*2).
Proof.
  unfold flat_records.
  induction docs as [|[label lines] docs [IH1 IH2]]; [by split|].
  rewrite !fmap_cons, !concat_cons, !fmap_app.
  split; (apply Forall_app; split; [|done]); unfold labelled; cbn [fst snd];
    clear; (induction lines as [|x lines IH]; [done|]); by constructor.
Qed.

Lemma no_null_in_vectors (vs : list EmbeddingVector) :
  Forall (fun c => is_null c = false) (Vec <$> vs).
Proof. apply Forall_fmap, Forall_forall. done. Qed.

(** The counts of the frame of any labelled documents with their
    embeddings. *)
Lemma groupby_count_frame (docs : list (string * list string))
    (vs : list EmbeddingVector) :
  length vs = length (flat_records docs) ->
  groupby_count (frame_with_embeddings (flat_records docs) vs) "type"
  = inr ((fun label =>
            (label, [("text", rows_of label docs);
                     ("openaiEmbeddings", rows_of label docs)]))
           <$> merge_sort String.le
                 (remove_dups (filter (fun d => d.2 <> []) docs).*1)).
Proof.
  intros Hlen. unfold groupby_count, frame_with_embeddings.
  cbn [pd.columns pd.lookup_column String.eqb Ascii.eqb Bool.eqb].
  rewrite no_Vec_key, group_keys_flat_records. f_equal.
  apply list_fmap_ext. intros _ label _. f_equal.
  rewrite !filter_cons, filter_nil.
  rewrite decide_False by (by intros ?).
  rewrite !decide_True by done. cbn [fmap list_fmap fst snd].
  destruct (no_null_in_records docs) as [_ Htext].
  rewrite (count_in_group_no_null _ _ _ Htext) by (by rewrite !length_fmap).
  rewrite (count_in_group_no_null _ _ _ (no_null_in_vectors vs))
    by (by rewrite !length_fmap).
  by rewrite rows_with_label.
Qed.

Lemma rows_of_documents (g gr b i : list string) (d : string * list string) :
  d ∈ documents_by_label g gr b i ->
  rows_of d.1 (documents g gr b i) = length d.2.
Proof.
  unfold documents_by_label, documents, rows_of.
  rewrite !elem_of_cons, elem_of_nil.
  intros [->|[->|[->|[->|[]]]]]; cbn [fst snd];
    rewrite !filter_cons, filter_nil; cbn [fst snd];
    repeat (case_decide; [try discriminate|try done]);
    cbn; lia.
Qed.

Lemma keys_of_documents (g gr b i : list string) :
  merge_sort String.le
    (remove_dups (filter (fun d => d.2 <> []) (documents g gr b i)).*1)
  = (filter (fun d => d.2 <> []) (documents_by_label g gr b i)).*1.
Proof.
  unfold documents, documents_by_label.
  destruct g as [|? ?], gr as [|? ?], b as [|? ?], i as [|? ?];
    vm_compute; reflexivity.
Qed.

(** X8. What cell 3 prints at the end of a run: one group for each of the
    four labels whose file has a line, in the ascending order of the
    labels (blackholes, goats, gravity, invasivegoats), and for each group
    the number of lines of its file, both as the count of [text] and as
    the count of [openaiEmbeddings]. *)
Theorem groupby_count_of_run {S : Type}
    (service : S -> list value -> string -> (exn + response) * S)
    (fuel : nat) (fs : gmap string string)
    (dotenv_values : gmap string (option string))
    (environ : gmap string string) (w w' : World S) (df : pd.frame) :
  run service fuel (notebook fs dotenv_values environ) w = Some (inr df, w') ->
  exists goats_lines gravity_lines blackholes_lines invasivegoats_lines,
    read_file fs "docs/goats.txt" = inr goats_lines
    /\ read_file fs "docs/gravity.txt" = inr gravity_lines
    /\ read_file fs "docs/blackholes.txt" = inr blackholes_lines
    /\ read_file fs "docs/invasivegoats.txt" = inr invasivegoats_lines
    /\ EvPrint (OutGroupCount df "type") ∈ trace w'
    /\ groupby_count df "type"
       = inr ((fun d => (d.1, [("text", length d.2);
                               ("openaiEmbeddings", length d.2)]))
                <$> filter (fun d => d.2 <> [])
                      (documents_by_label goats_lines gravity_lines
                         blackholes_lines invasivegoats_lines)).
Proof.
  intros H. apply run_notebook_inv in H
    as (g & gr & b & i & os & vs & Hg & Hgr & Hb & Hi & _ & _ & _ & Hos & Hlen & -> & Htr).
  exists g, gr, b, i. repeat (split; [done|]). split.
  { rewrite Htr, !elem_of_app. right. right. right. right. left. }
  apply Forall2_length in Hos.
  rewrite groupby_count_frame by lia. f_equal.
  rewrite keys_of_documents, <- list_fmap_compose.
  apply list_fmap_ext. intros _ d [_ Hd]%list_elem_of_lookup_2%list_elem_of_filter.
  unfold compose. cbv beta. by rewrite (rows_of_documents _ _ _ _ _ Hd).
Qed.

Lemma groupby_count_of_run_witness :
  run demo_service 80 (notebook demo_fs demo_dotenv ∅) (demo_world 2)
  = Some (inr demo_frame, demo_notebook_run.2)
  /\ exists goats_lines gravity_lines blackholes_lines invasivegoats_lines,
       read_file demo_fs "docs/goats.txt" = inr goats_lines
       /\ read_file demo_fs "docs/gravity.txt" = inr gravity_lines
       /\ read_file demo_fs "docs/blackholes.txt" = inr blackholes_lines
       /\ read_file demo_fs "docs/invasivegoats.txt" = inr invasivegoats_lines
       /\ EvPrint (OutGroupCount demo_frame "type") ∈ trace demo_notebook_run.2
       /\ groupby_count demo_frame "type"
          = inr ((fun d => (d.1, [("text", length d.2);
                                  ("openaiEmbeddings", length d.2)]))
                   <$> filter (fun d => d.2 <> [])
                         (documents_by_label goats_lines gravity_lines
                            blackholes_lines invasivegoats_lines)).
Proof.
  split; [vm_compute; reflexivity|].
  apply (groupby_count_of_run demo_service 80 demo_fs demo_dotenv ∅
           (demo_world 2) demo_notebook_run.2 demo_frame).
  vm_compute; reflexivity.
Defined.

(* ================================================================= *)
(** ** More on the embedding client *)

Lemma failed_calls_app (tr1 tr2 : list event) :
  failed_calls (tr1 ++ tr2) = failed_calls tr1 + failed_calls tr2.
Proof. unfold failed_calls. by rewrite filter_app, length_app. Qed.

Lemma messages_app (tr1 tr2 : list event) :
  messages (tr1 ++ tr2) = messages tr1 + messages tr2.
Proof. unfold messages. by rewrite filter_app, length_app. Qed.

Lemma slept_app (tr1 tr2 : list event) :
  slept (tr1 ++ tr2) = (slept tr1 + slept tr2)%Z.
Proof.
  induction tr1 as [|ev tr1 IH]; [done|].
  destruct ev; cbn [app slept]; lia.
Qed.

Lemma call_inputs_app (tr1 tr2 : list event) :
  call_inputs (tr1 ++ tr2) = call_inputs tr1 ++ call_inputs tr2.
Proof. apply omap_app. Qed.

(** What the failed attempts on a text leave. *)
Lemma failed_attempts_readings (text : value)
    (fails : list ((exn + response) * exn)) :
  Forall (fun re => failure re.1 = Some re.2) fails ->
  let tr := concat ((fun re => failed_attempt text re.1 re.2) <$> fails) in
  failed_calls tr = length fails
  /\ slept tr = (5 * Z.of_nat (length fails))%Z
  /\ messages tr = length fails
  /\ call_inputs tr = replicate (length fails) ([text], openai_embed_model)
  /\ Forall (fun ev => written ev = None) tr.
Proof.
  induction 1 as [|[r e] fails Hr _ (IH1 & IH2 & IH3 & IH4 & IH5)];
    [by repeat split|].
  cbn zeta in *. rewrite fmap_cons, concat_cons. cbn [fst snd] in *.
  rewrite failed_calls_app, slept_app, messages_app, call_inputs_app.
  rewrite IH1, IH2, IH3, IH4. unfold failed_attempt.
  split; [|split; [|split; [|split]]].
  - unfold failed_calls. rewrite !filter_cons. cbn [is_failed_call].
    rewrite Hr. by rewrite decide_True.
  - cbn [slept length]. lia.
  - done.
  - done.
  - apply Forall_app. split; [by repeat constructor|done].
Qed.

(** What the loop for one record leaves. *)
Lemma record_trace_readings (text : value) (o : outcome)
    (v : EmbeddingVector) :
  outcome_ok o v ->
  failed_calls (record_trace text o) = length o.1
  /\ slept (record_trace text o) = (5 * Z.of_nat (length o.1))%Z
  /\ messages (record_trace text o) = length o.1
  /\ call_inputs (record_trace text o)
     = replicate (Datatypes.S (length o.1)) ([text], openai_embed_model)
  /\ Forall (fun ev => written ev = None) (record_trace text o).
Proof.
  intros [Hf [ds Hds]].
  destruct (failed_attempts_readings text o.1 Hf) as (H1 & H2 & H3 & H4 & H5).
  unfold record_trace.
  rewrite failed_calls_app, slept_app, messages_app, call_inputs_app.
  rewrite H1, H2, H3, H4, Hds.
  set (ev := EvCreate [text] openai_embed_model
               (inr {| data := Some ({| embedding := Some v |} :: ds) |})).
  change (failed_calls [ev]) with 0. change (slept [ev]) with 0%Z.
  change (messages [ev]) with 0.
  change (call_inputs [ev]) with (replicate 1 ([text], openai_embed_model)).
  rewrite <- replicate_add.
  replace (length o.1 + 1) with (Datatypes.S (length o.1)) by lia.
  repeat split; try lia.
  apply Forall_app. split; [done|by repeat constructor].
Qed.

Lemma record_traces_readings (text_list : list value) (os : list outcome)
    (vs : list EmbeddingVector) :
  Forall2 outcome_ok os vs -> length os = length text_list ->
  let tr := concat (zip_with record_trace text_list os) in
  let retries := (fun o : outcome => length o.1) <$> os in
  failed_calls tr = sum_list retries
  /\ slept tr = (5 * Z.of_nat (sum_list retries))%Z
  /\ messages tr = sum_list retries
  /\ service_calls tr = length text_list + sum_list retries
  /\ call_inputs tr
     = concat (zip_with
                 (fun text n =>
                    replicate (Datatypes.S n) ([text], openai_embed_model))
                 text_list retries)
  /\ Forall (fun ev => written ev = None) tr.
Proof.
  intros Hos. revert text_list.
  induction Hos as [|o v os vs Ho _ IH]; intros [|text text_list] Hlen;
    try done.
  injection Hlen as Hlen.
  destruct (IH text_list Hlen) as (IH1 & IH2 & IH3 & IH4 & IH5 & IH6).
  destruct (record_trace_readings text o v Ho) as (H1 & H2 & H3 & H4 & H5).
  cbn zeta in *. rewrite fmap_cons. cbn [zip_with sum_list sum_list_with].
  rewrite !concat_cons.
  rewrite failed_calls_app, slept_app, messages_app, service_calls_app,
    call_inputs_app.
  rewrite IH1, IH2, IH3, IH4, IH5, H1, H2, H3, H4, service_calls_record_trace.
  cbn [length]. unfold id.
  split; [done|]. split; [lia|]. split; [done|]. split; [lia|].
  split; [done|]. by apply Forall_app.
Qed.

(** X9. The cost of the retries. In every run of [get_embeddings] that
    returns, the calls to the service are one per text plus one per failed
    call; each failed call, and nothing else, is followed by one message
    and one sleep of 5 seconds, so the time slept is 5 seconds times the
    number of failed calls; and nothing is written. *)
Theorem retries_accounted {S : Type}
    (service : S -> list value -> string -> (exn + response) * S)
    (fuel : nat) (text_list : list value) (w w' : World S)
    (embedding_list : list EmbeddingVector) :
  run service fuel (get_embeddings text_list) w = Some (embedding_list, w') ->
  exists tr,
    trace w' = trace w ++ tr
    /\ service_calls tr = length text_list + failed_calls tr
    /\ length (successes tr) = length text_list
    /\ messages tr = failed_calls tr
    /\ slept tr = (5 * Z.of_nat (failed_calls tr))%Z
    /\ Forall (fun ev => written ev = None) tr.
Proof.
  intros H. apply run_for_text_inv in H as (os & vs & Hos & Hlen & -> & Htr).
  destruct (record_traces_readings text_list os vs Hos Hlen)
    as (H1 & H2 & H3 & H4 & _ & H6). cbn zeta in *.
  eexists. split; [exact Htr|]. rewrite H1, H2, H3, H4.
  rewrite (successes_record_traces _ _ _ Hos Hlen).
  apply Forall2_length in Hos.
  rewrite length_zip_with, length_fmap. repeat split; try done. lia.
Qed.

Lemma retries_accounted_witness :
  run demo_service 40 (get_embeddings demo_texts) (demo_world 2)
  = Some demo_client_run
  /\ exists tr,
       trace demo_client_run.2 = trace (demo_world 2) ++ tr
       /\ service_calls tr = length demo_texts + failed_calls tr
       /\ length (successes tr) = length demo_texts
       /\ messages tr = failed_calls tr
       /\ slept tr = (5 * Z.of_nat (failed_calls tr))%Z
       /\ Forall (fun ev => written ev = None) tr.
Proof.
  split; [vm_compute; reflexivity|].
  apply (retries_accounted demo_service 40 demo_texts (demo_world 2)
           demo_client_run.2 demo_client_run.1).
  vm_compute; reflexivity.
Defined.

(** X10. One text per call, in order. In every run of [get_embeddings]
    that returns, the calls are made text after text in the order of the
    list: for each text one call or more, each with that text alone as
    input and with the engine [text-embedding-ada-002], the calls before
    the last being the failed ones. No call carries two texts, and no
    text is called for again once a later one has been. *)
Theorem calls_in_order_one_text_each {S : Type}
    (service : S -> list value -> string -> (exn + response) * S)
    (fuel : nat) (text_list : list value) (w w' : World S)
    (embedding_list : list EmbeddingVector) :
  run service fuel (get_embeddings text_list) w = Some (embedding_list, w') ->
  exists (tr : list event) (retries : list nat),
    trace w' = trace w ++ tr
    /\ length retries = length text_list
    /\ call_inputs tr
       = concat (zip_with
                   (fun text n =>
                      replicate (Datatypes.S n)
                        ([text], "text-embedding-ada-002"))
                   text_list retries)
    /\ failed_calls tr = sum_list retries.
Proof.
  intros H. apply run_for_text_inv in H as (os & vs & Hos & Hlen & -> & Htr).
  destruct (record_traces_readings text_list os vs Hos Hlen)
    as (H1 & _ & _ & _ & H5 & _). cbn zeta in *.
  eexists _, _. split; [exact Htr|]. split; [|split; [exact H5|exact H1]].
  by rewrite length_fmap.
Qed.

Lemma calls_in_order_one_text_each_witness :
  run demo_service 40 (get_embeddings demo_texts) (demo_world 2)
  = Some demo_client_run
  /\ exists (tr : list event) (retries : list nat),
       trace demo_client_run.2 = trace (demo_world 2) ++ tr
       /\ length retries = length demo_texts
       /\ call_inputs tr
          = concat (zip_with
                      (fun text n =>
                         replicate (Datatypes.S n)
                           ([text], "text-embedding-ada-002"))
                      demo_texts retries)
       /\ failed_calls tr = sum_list retries.
Proof.
  split; [vm_compute; reflexivity|].
  apply (calls_in_order_one_text_each demo_service 40 demo_texts
           (demo_world 2) demo_client_run.2 demo_client_run.1).
  vm_compute; reflexivity.
Defined.

(** An answer recorded in the trace of a run is an answer of the service
    in some state. *)
Lemma answered_elem_of {S : Type}
    (service : S -> list value -> string -> (exn + response) * S)
    (tr : list event) (s s' : S) input engine r :
  answered service s tr s' -> EvCreate input engine r ∈ tr ->
  exists s0, r = (service s0 input engine).1.
Proof.
  revert s. induction tr as [|ev tr IH]; intros s Hans Hin.
  - by apply elem_of_nil in Hin.
  - apply elem_of_cons in Hin as [<-|Hin].
    + cbn [answered] in Hans. destruct Hans as [-> _]. by exists s.
    + destruct ev; cbn [answered] in Hans; try (by eapply IH).
      destruct Hans as [_ Hans]. by eapply IH.
Qed.

(** X11. The client never gives up. Against a service all of whose
    answers are failures (it raises, or its responses are malformed),
    [get_embeddings] on a list with at least one text does not return,
    whatever the number of steps it is given: it raises nothing and
    returns no partial list. *)
Theorem get_embeddings_never_gives_up {S : Type}
    (service : S -> list value -> string -> (exn + response) * S)
    (text : value) (rest : list value) (fuel : nat) (w : World S) :
  (forall s input engine, failure (service s input engine).1 <> None) ->
  run service fuel (get_embeddings (text :: rest)) w = None.
Proof.
  intros Hfail.
  destruct (run service fuel (get_embeddings (text :: rest)) w)
    as [[vs w']|] eqn:H; [exfalso|done].
  unfold get_embeddings in H. cbn [for_text] in H.
  apply run_bind_inv in H as (el1 & w1 & H1 & _).
  destruct (run_answered service _ _ _ _ _ H1) as (tr & Htr & Hans).
  apply run_embed_text_inv in H1 as (o & v & [_ [ds Hds]] & _ & Htr').
  rewrite Htr' in Htr. apply app_inv_head in Htr. subst tr.
  destruct (answered_elem_of service _ _ _ [text] openai_embed_model
              (inr o.2) Hans) as [s0 Hs0].
  { unfold record_trace. apply elem_of_app. right.
    by apply list_elem_of_singleton. }
  apply (Hfail s0 [text] openai_embed_model). rewrite <- Hs0, Hds. done.
Qed.

Lemma get_embeddings_never_gives_up_witness :
  (forall s input engine,
     failure (always_fails (inr {| data := None |}) s input engine).1 <> None)
  /\ run (always_fails (inr {| data := None |})) 1000
       (get_embeddings demo_texts) (demo_world 0) = None.
Proof.
  assert (forall s input engine,
            failure (always_fails (inr {| data := None |}) s input engine).1
            <> None) as Hfail by done.
  split; [exact Hfail|].
  exact (get_embeddings_never_gives_up (always_fails (inr {| data := None |}))
           (Str ("Goats" +:+ nl)) [Str ("LIGO" +:+ nl)] 1000 (demo_world 0)
           Hfail).
Defined.

(** A pass through the loop body does to any list what it does to one: it
    appends the same vectors, none or one. *)
Lemma attempt_step_acc {S : Type}
    (service : S -> list value -> string -> (exn + response) * S)
    (text : value) (w : World S) :
  exists d b w1, forall el,
    attempt_step service text el w = ((el ++ d, b), w1).
Proof.
  unfold attempt_step.
  destruct (service (svc w) [text] openai_embed_model) as [r s'].
  destruct (let! response := r in response_embedding response) as [e|v].
  - eexists [], _, _. intros el. by rewrite app_nil_r.
  - by eexists [v], _, _.
Qed.

Lemma run_while_acc {S : Type}
    (service : S -> list value -> string -> (exn + response) * S)
    (n : nat) (text : value) el b w el' w' :
  run service n (ITree.iter (while_not_done text) (el, b)) w = Some (el', w') ->
  exists d, el' = el ++ d /\
    forall el2, exists m,
      run service m (ITree.iter (while_not_done text) (el2, b)) w
      = Some (el2 ++ d, w').
Proof.
  revert el b w. induction (lt_wf n) as [n _ IH]. intros el b w H.
  destruct b.
  - apply run_while_done_inv in H as [= -> ->]. exists [].
    split; [by rewrite app_nil_r|]. intros el2. exists 1.
    by rewrite run_while_done, app_nil_r.
  - apply run_while_turn_inv in H as (m & Hm & H).
    destruct (attempt_step_acc service text w) as (d1 & b1 & w1 & Hstep).
    rewrite Hstep in H. cbn [fst snd] in H.
    destruct (IH m Hm _ _ _ H) as (d & -> & Hall).
    exists (d1 ++ d). split; [by rewrite app_assoc|]. intros el2.
    destruct (Hall (el2 ++ d1)) as [m' Hm'].
    exists (6 + m'). apply run_while_turn. rewrite Hstep. cbn [fst snd].
    by rewrite app_assoc.
Qed.

Lemma run_for_text_acc {S : Type}
    (service : S -> list value -> string -> (exn + response) * S)
    (n : nat) (text_list : list value) el w el' w' :
  run service n (for_text text_list el) w = Some (el', w') ->
  exists d, el' = el ++ d /\
    forall el2, exists m,
      run service m (for_text text_list el2) w = Some (el2 ++ d, w').
Proof.
  revert el w. induction text_list as [|text text_list IH]; intros el w H.
  - cbn [for_text] in H. apply run_Ret_inv in H as [= -> ->]. exists [].
    split; [by rewrite app_nil_r|]. intros el2. exists 1.
    cbn [for_text]. by rewrite run_Ret, app_nil_r.
  - cbn [for_text] in H. apply run_bind_inv in H as (el1 & w1 & H1 & H2).
    apply run_while_acc in H1 as (d1 & -> & Hall1).
    apply IH in H2 as (d2 & -> & Hall2).
    exists (d1 ++ d2). split; [by rewrite app_assoc|]. intros el2.
    destruct (Hall1 el2) as [m1 Hm1]. destruct (Hall2 (el2 ++ d1)) as [m2 Hm2].
    exists (m1 + m2). cbn [for_text].
    eapply run_bind; [exact Hm1|]. by rewrite app_assoc.
Qed.

Lemma run_for_text_app {S : Type}
    (service : S -> list value -> string -> (exn + response) * S)
    (n1 n2 : nat) (l1 l2 : list value) el w el1 w1 x :
  run service n1 (for_text l1 el) w = Some (el1, w1) ->
  run service n2 (for_text l2 el1) w1 = Some x ->
  exists m, run service m (for_text (l1 ++ l2) el) w = Some x.
Proof.
  revert el w. induction l1 as [|text l1 IH]; intros el w H1 H2.
  - cbn [for_text] in H1. apply run_Ret_inv in H1 as [= -> ->]. by exists n2.
  - cbn [for_text] in H1. apply run_bind_inv in H1 as (r & w0 & Ha & Hb).
    destruct (IH _ _ Hb H2) as [m Hm]. exists (n1 + m).
    cbn [app for_text]. by eapply run_bind.
Qed.

(** X12. Embedding a list in two parts. Running [get_embeddings] on the
    first part of a list and then, from the world this leaves, on the
    second part gives the two halves of what [get_embeddings] gives on the
    whole list, and leaves the same world; conversely every run on the
    whole list splits in this way. Nothing is carried from one text to
    the next but the state of the service. *)
Theorem get_embeddings_app {S : Type}
    (service : S -> list value -> string -> (exn + response) * S)
    (l1 l2 : list value) (w : World S) :
  (forall n1 n2 vs1 w1 vs2 w2,
     run service n1 (get_embeddings l1) w = Some (vs1, w1) ->
     run service n2 (get_embeddings l2) w1 = Some (vs2, w2) ->
     exists fuel,
       run service fuel (get_embeddings (l1 ++ l2)) w
       = Some (vs1 ++ vs2, w2))
  /\ (forall n vs w2,
        run service n (get_embeddings (l1 ++ l2)) w = Some (vs, w2) ->
        exists n1 n2 vs1 w1 vs2,
          vs = vs1 ++ vs2
          /\ length vs1 = length l1
          /\ run service n1 (get_embeddings l1) w = Some (vs1, w1)
          /\ run service n2 (get_embeddings l2) w1 = Some (vs2, w2)).
Proof.
  unfold get_embeddings. split.
  - intros n1 n2 vs1 w1 vs2 w2 H1 H2.
    apply run_for_text_acc in H2 as (d & Hd & Hall). cbn [app] in Hd. subst d.
    destruct (Hall vs1) as [m Hm].
    by apply (run_for_text_app service n1 m l1 l2 [] w vs1 w1).
  - intros n vs w2 H.
    apply run_for_text_app_inv in H as (m & vs1 & w1 & H1 & H2).
    pose proof H1 as H1'.
    apply run_for_text_inv in H1' as (os & vs' & Hos & Hlen & -> & _).
    apply Forall2_length in Hos. cbn [app] in *.
    apply run_for_text_acc in H2 as (d & -> & Hall).
    destruct (Hall []) as [m2 Hm2]. cbn [app] in Hm2.
    exists m, m2, vs', w1, d. repeat split; try done. lia.
Qed.

Lemma get_embeddings_app_witness :
  run demo_service 40 (get_embeddings [Str ("Goats" +:+ nl)]) (demo_world 2)
  = Some demo_prefix_run
  /\ run demo_service 40 (get_embeddings [Str ("LIGO" +:+ nl)])
       demo_prefix_run.2
     = Some ([[0.125%float; 0.75%float]], demo_client_run.2)
  /\ exists fuel,
       run demo_service fuel
         (get_embeddings ([Str ("Goats" +:+ nl)] ++ [Str ("LIGO" +:+ nl)]))
         (demo_world 2)
       = Some (demo_prefix_run.1 ++ [[0.125%float; 0.75%float]],
               demo_client_run.2).
Proof.
  assert (run demo_service 40 (get_embeddings [Str ("Goats" +:+ nl)])
            (demo_world 2) = Some demo_prefix_run) as H1
    by (vm_compute; reflexivity).
  assert (run demo_service 40 (get_embeddings [Str ("LIGO" +:+ nl)])
            demo_prefix_run.2
          = Some ([[0.125%float; 0.75%float]], demo_client_run.2)) as H2
    by (vm_compute; reflexivity).
  split; [exact H1|]. split; [exact H2|].
  destruct (get_embeddings_app demo_service [Str ("Goats" +:+ nl)]
              [Str ("LIGO" +:+ nl)] (demo_world 2)) as [Happ _].
  exact (Happ 40 40 demo_prefix_run.1 demo_prefix_run.2 _ _ H1 H2).
Defined.

(* ================================================================= *)
(** ** More on the run of the notebook *)









(** X15. When the configuration check passes. It passes exactly when
    [.env] binds at least one name and the credential [OPENAI_API_KEY] has
    a value in [.env] or is in the process environment; the environment
    it leaves is then the process environment with every binding of
    [.env] that has a value written over it ([override=True]): a value of
    [.env] wins over one of the process environment, and a name that
    [.env] binds to no value keeps the value it had. *)
Theorem check_configuration_passes
    (dotenv_values : gmap string (option string))
    (environ environ' : gmap string string) :
  (check_configuration dotenv_values environ = inr environ'
   <-> dotenv_values <> ∅
       /\ (is_Some (environ !! "OPENAI_API_KEY")
           \/ exists key,
                dotenv_values !! "OPENAI_API_KEY" = Some (Some key))
       /\ environ' = omap id dotenv_values ∪ environ)
  /\ (check_configuration dotenv_values environ = inr environ' ->
      forall var,
        environ' !! var
        = match dotenv_values !! var with
          | Some (Some v) => Some v
          | _ => environ !! var
          end).
Proof.
  assert (forall var,
            (omap id dotenv_values ∪ environ) !! var
            = match dotenv_values !! var with
              | Some (Some v) => Some v
              | _ => environ !! var
              end) as Hlookup.
  { intros var. rewrite lookup_union, lookup_omap.
    destruct (dotenv_values !! var) as [[v|]|]; cbn;
      by destruct (environ !! var). }
  assert (check_configuration dotenv_values environ = inr environ'
          <-> dotenv_values <> ∅
              /\ (is_Some (environ !! "OPENAI_API_KEY")
                  \/ exists key,
                       dotenv_values !! "OPENAI_API_KEY" = Some (Some key))
              /\ environ' = omap id dotenv_values ∪ environ) as Hiff.
  { destruct (decide (dotenv_values = ∅)) as [->|Hne].
    - rewrite check_configuration_unloaded. split; [done|]. by intros [? _].
    - rewrite check_configuration_loaded by done.
      specialize (Hlookup "OPENAI_API_KEY").
      destruct ((omap id dotenv_values ∪ environ) !! "OPENAI_API_KEY")
        as [key|] eqn:Hk.
      + split.
        * intros [= <-]. split; [done|]. split; [|done].
          destruct (dotenv_values !! "OPENAI_API_KEY") as [[v|]|];
            [right; by eexists|left; by eexists..].
        * by intros (_ & _ & ->).
      + split; [done|]. intros (_ & [[v Hv]|[v Hv]] & _).
        * rewrite Hv in Hlookup.
          by destruct (dotenv_values !! "OPENAI_API_KEY") as [[?|]|].
        * by rewrite Hv in Hlookup. }
  split; [exact Hiff|].
  intros (_ & _ & ->)%Hiff. exact Hlookup.
Qed.

Lemma check_configuration_passes_witness :
  check_configuration demo_dotenv {["OPENAI_API_KEY" := "sk-old"]}
  = inr {["OPENAI_API_KEY" := "sk-demo"]}
  /\ forall var,
       ({["OPENAI_API_KEY" := "sk-demo"]} : gmap string string) !! var
       = match demo_dotenv !! var with
         | Some (Some v) => Some v
         | _ => ({["OPENAI_API_KEY" := "sk-old"]} : gmap string string) !! var
         end.
Proof.
  assert (check_configuration demo_dotenv {["OPENAI_API_KEY" := "sk-old"]}
          = inr {["OPENAI_API_KEY" := "sk-demo"]}) as Hcfg
    by (vm_compute; reflexivity).
  split; [exact Hcfg|].
  destruct (check_configuration_passes demo_dotenv
              {["OPENAI_API_KEY" := "sk-old"]}
              {["OPENAI_API_KEY" := "sk-demo"]}) as [_ Hlookup].
  exact (Hlookup Hcfg).
Defined.
